(** * Block-device conformance test of lib/bio/debug.c

    A shallow embedding of [get_signature], [is_valid_block], [erase_test],
    [write_test] and [bio_test_device], followed by the properties of the
    conformance test.

    Integers are mathematical integers ([Z]); every C conversion that can
    change a value is written out ([to_size_t], [to_ssize_t], [to_uint8]).
    Bytes are [Z] values in [0, 256).  The device is a state of an abstract
    type that every I/O call threads through; each call and each [printf]
    is also recorded, in program order, in the list of events the
    computation emits.  Scratch buffers ([memalign] / [free]) are values:
    allocation and release are not modelled. *)

From Stdlib Require Import ZArith List Bool Lia String Permutation.
Import ListNotations.
Local Open Scope Z_scope.

(** ** Events and the computation monad *)

Inductive event : Type :=
| EvPrint (fmt : string) (args : list Z)
| EvErase (offset len : Z) (ret : Z)
| EvRead (block count : Z) (ret : Z)
| EvWrite (block count : Z) (data : list Z) (ret : Z).

Definition is_read (e : event) : bool :=
  match e with EvRead _ _ _ => true | _ => false end.

Definition is_write (e : event) : bool :=
  match e with EvWrite _ _ _ _ => true | _ => false end.

Definition is_print (e : event) : bool :=
  match e with EvPrint _ _ => true | _ => false end.

(** Block number an I/O event addresses. *)
Definition ev_block (e : event) : Z :=
  match e with
  | EvRead b _ _ => b
  | EvWrite b _ _ _ => b
  | _ => -1
  end.

(** Status an I/O event returned. *)
Definition ev_ret (e : event) : Z :=
  match e with
  | EvErase _ _ r => r
  | EvRead _ _ r => r
  | EvWrite _ _ _ r => r
  | EvPrint _ _ => 0
  end.

Module IO.

(** A computation over a device state [S]: the value, the state it
    leaves, and the events it emitted, oldest first. *)
Definition M (S A : Type) : Type := S -> A * S * list event.

Definition ret {S A} (a : A) : M S A := fun s => (a, s, []).

Definition bind {S A B} (m : M S A) (f : A -> M S B) : M S B :=
  fun s =>
    let '(a, s1, t1) := m s in
    let '(b, s2, t2) := f a s1 in
    (b, s2, t1 ++ t2).

Definition emit {S} (e : event) : M S unit := fun s => (tt, s, [e]).

Definition value {S A} (r : A * S * list event) : A := fst (fst r).
Definition final {S A} (r : A * S * list event) : S := snd (fst r).
Definition events {S A} (r : A * S * list event) : list event := snd r.

End IO.

Import IO.

Notation "x <- m ;; k" := (bind m (fun x => k))
  (at level 61, m at next level, right associativity).
Notation "m ;;; k" := (bind m (fun _ => k))
  (at level 61, right associativity).

(** [printf] of the console: the format string, its escapes as they are
    written in the source, and its arguments. *)
Definition printf {S} (fmt : string) (args : list Z) : M S unit :=
  emit (EvPrint fmt args).

(** ** get_signature

    [sigptr[k]] is byte [k] of the 32-bit word in memory. *)

Definition to_uint8 (z : Z) : Z := Z.land z 255.

Definition word_byte (word : Z) (k : Z) : Z :=
  Z.land (Z.shiftr word (8 * k)) 255.

Definition get_signature (word : Z) : Z :=
  to_uint8
    (Z.lxor (Z.lxor (Z.lxor (word_byte word 0) (word_byte word 1))
                    (word_byte word 2))
            (word_byte word 3)).

(** [memset(buf, c, n)] on a fresh buffer of [n] bytes. *)
Definition memset (c : Z) (n : Z) : list Z := repeat (to_uint8 c) (Z.to_nat n).

Section Bio.

(** Width in bits of [size_t] and [ssize_t]; the headers that fix it are
    not part of this file. *)
Variable wbits : Z.

Definition ssize_max : Z := 2 ^ (wbits - 1) - 1.
Definition ssize_min : Z := - 2 ^ (wbits - 1).

(** Conversion to [size_t]. *)
Definition to_size_t (z : Z) : Z := z mod 2 ^ wbits.

(** Conversion to [ssize_t] (two's complement). *)
Definition to_ssize_t (z : Z) : Z :=
  (z + 2 ^ (wbits - 1)) mod 2 ^ wbits - 2 ^ (wbits - 1).

(** A value an [ssize_t] variable can hold. *)
Definition ssize_t_range (z : Z) : Prop := ssize_min <= z <= ssize_max.

(** [ERR_IO] of err.h. *)
Variable ERR_IO : Z.

(** State of the device and of everything behind it. *)
Variable state : Type.

(** [bio_erase(dev, offset, len)] and
    [bio_write_block(dev, buf, block, count)] of lib/bio/bio.c: the
    returned status and the state left. *)
Variable bio_erase : state -> Z -> Z -> Z * state.
Variable bio_write_block : state -> list Z -> Z -> Z -> Z * state.

(** The fields of [bdev_t] the test uses.  [read_block] is the device's
    hook: it returns its status and the contents of the buffer it was
    handed, and leaves a state. *)
Record bdev : Type := {
  block_size : Z;
  block_count : Z;
  total_size : Z;
  erase_byte : Z;
  read_block : state -> Z -> Z -> Z * list Z * state
}.

(** The three I/O calls as computations. *)
Definition do_read_block (device : bdev) (block count : Z)
  : M state (Z * list Z) :=
  fun s =>
    let '(n, buf, s') := read_block device s block count in
    ((n, buf), s', [EvRead block count n]).

Definition do_bio_erase (offset len : Z) : M state Z :=
  fun s =>
    let '(r, s') := bio_erase s offset len in
    (r, s', [EvErase offset len r]).

Definition do_bio_write_block (buf : list Z) (block count : Z) : M state Z :=
  fun s =>
    let '(r, s') := bio_write_block s buf block count in
    (r, s', [EvWrite block count buf r]).

(** *** is_valid_block *)

(** The comparison loop [for (i = 0; i < block_size; i++)], with [fuel]
    iterations left from index [i], a [size_t].  No caller passes a
    [pattern_length] of zero, on which the C remainder is undefined. *)
Fixpoint compare_loop (fuel : nat) (i : Z) (block_contents pattern : list Z)
         (pattern_length : Z) : bool :=
  match fuel with
  | O => true
  | S fuel' =>
      if negb (nth (Z.to_nat i) block_contents 0
               =? nth (Z.to_nat (i mod pattern_length)) pattern 0)
      then false
      else compare_loop fuel' (to_size_t (i + 1)) block_contents pattern
                        pattern_length
  end.

Definition is_valid_block (device : bdev) (block_num : Z) (pattern : list Z)
           (pattern_length : Z) : M state bool :=
  r <- do_read_block device block_num 1 ;;
  let '(n_bytes, block_contents) := r in
  if (n_bytes <? 0) || negb (n_bytes =? to_ssize_t (block_size device))
  then ret false
  else ret (compare_loop (Z.to_nat (block_size device)) 0 block_contents
                         pattern pattern_length).

(** *** erase_test *)

(** The validation loop, with [fuel] blocks left from [bnum].  [bnum]
    stays below [block_count], itself a [bnum_t], so [bnum++] never
    wraps; the counter is a [size_t]. *)
Fixpoint erase_validate_loop (device : bdev) (fuel : nat) (bnum : Z)
         (num_invalid_blocks : Z) : M state Z :=
  match fuel with
  | O => ret num_invalid_blocks
  | S fuel' =>
      ok <- is_valid_block device bnum [erase_byte device] 1 ;;
      erase_validate_loop device fuel' (bnum + 1)
        (if negb ok then to_size_t (num_invalid_blocks + 1)
         else num_invalid_blocks)
  end.

Definition erase_test (device : bdev) : M state Z :=
  printf "erasing device...\n" [] ;;;
  err <- do_bio_erase 0 (total_size device) ;;
  if err <? 0 then ret err
  else if negb (err =? total_size device) then ret ERR_IO
  else
    printf "validating erase...\n" [] ;;;
    num_invalid_blocks <-
      erase_validate_loop device (Z.to_nat (block_count device)) 0 0 ;;
    ret (to_ssize_t num_invalid_blocks).

(** *** write_test *)

(** First loop: [Some err] when a write failed and the function returns
    [err], [None] when the loop ran to its end. *)
Fixpoint write_loop (device : bdev) (fuel : nat) (bnum : Z)
  : M state (option Z) :=
  match fuel with
  | O => ret None
  | S fuel' =>
      let test_buffer := memset (get_signature bnum) (block_size device) in
      err <- do_bio_write_block test_buffer bnum 1 ;;
      if err <? 0 then ret (Some err)
      else write_loop device fuel' (bnum + 1)
  end.

(** Second loop. *)
Fixpoint verify_loop (device : bdev) (fuel : nat) (bnum : Z)
         (num_errors : Z) : M state Z :=
  match fuel with
  | O => ret num_errors
  | S fuel' =>
      let expected_pattern := [get_signature bnum] in
      ok <- is_valid_block device bnum expected_pattern 1 ;;
      verify_loop device fuel' (bnum + 1)
        (if negb ok then to_size_t (num_errors + 1) else num_errors)
  end.

Definition write_test (device : bdev) : M state Z :=
  w <- write_loop device (Z.to_nat (block_count device)) 0 ;;
  match w with
  | Some err => ret err
  | None =>
      num_errors <- verify_loop device (Z.to_nat (block_count device)) 0 0 ;;
      ret (to_ssize_t num_errors)
  end.

(** *** bio_test_device *)

Definition bio_test_device (device : bdev) : M state Z :=
  num_errors <- erase_test device ;;
  if num_errors <? 0 then
    printf "error %ld performing erase test\n" [num_errors] ;;;
    ret (-1)
  else
    printf "discovered %ld error(s) while testing erase.\n" [num_errors] ;;;
    if negb (num_errors =? 0) then
      printf "not continuing to test writes.\n" [] ;;;
      ret (-1)
    else
      num_errors <- write_test device ;;
      printf "Discovered %ld error(s) while testing write.\n" [num_errors] ;;;
      if negb (num_errors =? 0) then ret (-1) else ret 0.

End Bio.

Arguments block_size {state} _.
Arguments block_count {state} _.
Arguments total_size {state} _.
Arguments erase_byte {state} _.
Arguments read_block {state} _ _ _ _.
Arguments do_read_block {state} _ _ _ _.
Arguments do_bio_erase {state} _ _ _ _.
Arguments do_bio_write_block {state} _ _ _ _ _.
Arguments is_valid_block _ {state} _ _ _ _ _.
Arguments erase_validate_loop _ {state} _ _ _ _ _.
Arguments erase_test _ _ {state} _ _ _.
Arguments write_loop {state} _ _ _ _ _.
Arguments verify_loop _ {state} _ _ _ _ _.
Arguments write_test _ {state} _ _ _.
Arguments bio_test_device _ _ {state} _ _ _ _.

(** ** Vocabulary of the properties *)

(** The numbers [b; b + 1; ...], [n] of them. *)
Fixpoint zrange (b : Z) (n : nat) : list Z :=
  match n with
  | O => []
  | S n' => b :: zrange (b + 1) n'
  end.

(** The block indices [0 .. block_count). *)
Definition block_indices {state} (device : bdev state) : list Z :=
  zrange 0 (Z.to_nat (block_count device)).

(** Every byte at position [k] of the block equals
    [pattern[k mod length pattern]]. *)
Definition matches_pattern (size : Z) (contents pattern : list Z) : Prop :=
  forall k, 0 <= k < size ->
    nth (Z.to_nat k) contents 0
    = nth (Z.to_nat (k mod Z.of_nat (List.length pattern))) pattern 0.

(** The invariant of a block device: blocks are not empty and the device
    is [block_count] blocks long. *)
Definition bdev_wf {state} (device : bdev state) : Prop :=
  0 < block_size device /\
  0 <= block_count device /\
  total_size device = block_size device * block_count device.

(** Validate the blocks [bnums] one after the other, each against its own
    one-byte pattern, and keep every verdict. *)
Fixpoint validate_blocks (wbits : Z) {state} (device : bdev state)
         (pattern_of : Z -> list Z) (bnums : list Z) : M state (list bool) :=
  match bnums with
  | [] => ret []
  | b :: rest =>
      ok <- is_valid_block wbits device b (pattern_of b) 1 ;;
      oks <- validate_blocks wbits device pattern_of rest ;;
      ret (ok :: oks)
  end.

(** Number of blocks that failed validation. *)
Definition count_invalid (oks : list bool) : Z :=
  Z.of_nat (List.length (filter negb oks)).

(** What successive reads of the blocks [bnums] return: the block, the
    status and the buffer. *)
Fixpoint read_blocks {state} (device : bdev state) (bnums : list Z) (s : state)
  : list (Z * Z * list Z) :=
  match bnums with
  | [] => []
  | b :: rest =>
      let '(n, buf, s') := read_block device s b 1 in
      (b, n, buf) :: read_blocks device rest s'
  end.

(** A block read back whole and filled with its signature. *)
Definition holds_signature {state} (device : bdev state)
           (r : Z * Z * list Z) : Prop :=
  let '(b, n, buf) := r in
  n = block_size device /\ buf = memset (get_signature b) (block_size device).

(** The first loop of [write_test] over the whole device. *)
Definition write_phase {state} (bio_write_block : state -> list Z -> Z -> Z -> Z * state)
           (device : bdev state) : M state (option Z) :=
  write_loop bio_write_block device (Z.to_nat (block_count device)) 0.

(** Every write the first loop of [write_test] issues from [s] succeeds. *)
Definition writes_succeed {state} (bio_write_block : state -> list Z -> Z -> Z -> Z * state)
           (device : bdev state) (s : state) : Prop :=
  Forall (fun e => 0 <= ev_ret e) (events (write_phase bio_write_block device s)).

(** The phase of the conformance test that a run failed in. *)
Inductive phase : Type := ErasePhase | WritePhase.

(** The first phase that failed and its result, from the results [e] of
    [erase_test] and [w] of [write_test]; [None] when both are zero. *)
Definition first_failure (e w : Z) : option (phase * Z) :=
  if e =? 0 then
    if w =? 0 then None else Some (WritePhase, w)
  else Some (ErasePhase, e).

(** What one console line says about a failure. *)
Definition report_of_event (ev : event) : option (phase * Z) :=
  match ev with
  | EvPrint fmt [n] =>
      if String.eqb fmt "error %ld performing erase test\n"
      then Some (ErasePhase, n)
      else if String.eqb fmt "discovered %ld error(s) while testing erase.\n"
      then (if n =? 0 then None else Some (ErasePhase, n))
      else if String.eqb fmt "Discovered %ld error(s) while testing write.\n"
      then (if n =? 0 then None else Some (WritePhase, n))
      else None
  | _ => None
  end.

(** The first failure the console output reports. *)
Fixpoint reported_failure (t : list event) : option (phase * Z) :=
  match t with
  | [] => None
  | ev :: t' =>
      match report_of_event ev with
      | Some r => Some r
      | None => reported_failure t'
      end
  end.

(** ** A RAM-backed device with injectable faults

    Four blocks of four bytes that erase to 0x00, on a target whose
    [ssize_t] is 32 bits wide. *)

Module Sim.

Record faults : Type := {
  erase_status : option Z;      (* status [bio_erase] reports, nothing erased *)
  stuck : option (Z * Z);       (* a block that always reads as one byte *)
  failing_write : option Z;     (* a block whose write reports an error *)
  dropped_writes : list Z       (* blocks whose writes succeed but are lost *)
}.

Definition ram : Type := list (list Z).

Definition wbits : Z := 32.
Definition ERR_IO : Z := -20.

Fixpoint set_nth (n : nat) (x : list Z) (l : ram) : ram :=
  match l, n with
  | [], _ => []
  | _ :: t, O => x :: t
  | h :: t, S n' => h :: set_nth n' x t
  end.

Definition erase (f : faults) (s : ram) (offset len : Z) : Z * ram :=
  match erase_status f with
  | Some r => (r, s)
  | None => (len, map (fun _ => repeat 0 4) s)
  end.

Definition write (f : faults) (s : ram) (buf : list Z) (block count : Z)
  : Z * ram :=
  match failing_write f with
  | Some b =>
      if b =? block then (-5, s)
      else if existsb (Z.eqb block) (dropped_writes f) then (4, s)
      else (4, set_nth (Z.to_nat block) buf s)
  | None =>
      if existsb (Z.eqb block) (dropped_writes f) then (4, s)
      else (4, set_nth (Z.to_nat block) buf s)
  end.

Definition read (f : faults) (s : ram) (block count : Z)
  : Z * list Z * ram :=
  match stuck f with
  | Some (b, v) =>
      if b =? block then (4, repeat v 4, s)
      else (4, nth (Z.to_nat block) s [], s)
  | None => (4, nth (Z.to_nat block) s [], s)
  end.

Definition device (f : faults) : bdev ram := {|
  block_size := 4;
  block_count := 4;
  total_size := 16;
  erase_byte := 0;
  read_block := read f
|}.

(** The device before the test: every byte 0xFF. *)
Definition fresh : ram := repeat (repeat 255 4) 4.

(** The device after a successful erase. *)
Definition erased : ram := repeat (repeat 0 4) 4.

Definition healthy : faults :=
  {| erase_status := None; stuck := None; failing_write := None;
     dropped_writes := [] |}.

(** Block 2 reads back 0x01 whatever was stored. *)
Definition stuck_block : faults :=
  {| erase_status := None; stuck := Some (2, 1); failing_write := None;
     dropped_writes := [] |}.

(** [bio_erase] reports half of the device erased. *)
Definition short_erase : faults :=
  {| erase_status := Some 8; stuck := None; failing_write := None;
     dropped_writes := [] |}.

(** The write of block 2 fails. *)
Definition write_error : faults :=
  {| erase_status := None; stuck := None; failing_write := Some 2;
     dropped_writes := [] |}.

(** The writes of blocks 1 and 2 are lost. *)
Definition lost_writes : faults :=
  {| erase_status := None; stuck := None; failing_write := None;
     dropped_writes := [1; 2] |}.

Definition run_erase_test (f : faults) : Z * ram * list event :=
  erase_test wbits ERR_IO (erase f) (device f) fresh.

Definition run_write_test (f : faults) (s : ram) : Z * ram * list event :=
  write_test wbits (write f) (device f) s.

Definition run_test (f : faults) : Z * ram * list event :=
  bio_test_device wbits ERR_IO (erase f) (write f) (device f) fresh.

End Sim.

(** ** Further vocabulary *)

Definition is_erase (e : event) : bool :=
  match e with EvErase _ _ _ => true | _ => false end.

(** The device calls of a trace, console output left out. *)
Definition io_events (t : list event) : list event :=
  filter (fun e => negb (is_print e)) t.

(** XOR of a list of bytes. *)
Definition xor_bytes (l : list Z) : Z := fold_right Z.lxor 0 l.

(** A block read back whole, every byte of it the byte expected for that
    block. *)
Definition reads_back {state} (device : bdev state) (byte_of : Z -> Z)
           (r : Z * Z * list Z) : Prop :=
  let '(b, n, buf) := r in
  n = block_size device /\
  forall k, 0 <= k < block_size device -> nth (Z.to_nat k) buf 0 = byte_of b.

(** ** An ideal device

    [block_count] blocks of [block_size] bytes that hold what was last
    written, read [erase_byte] after an erase, and never fail.  The state
    maps a block number to its contents. *)

Module Ram.

Definition ram : Type := Z -> list Z.

(** Erases the blocks that lie wholly inside [offset, offset + len). *)
Definition erase (size : Z) (byte : Z) (s : ram) (offset len : Z) : Z * ram :=
  (len,
   fun b =>
     if (offset <=? b * size) && ((b + 1) * size <=? offset + len)
     then repeat byte (Z.to_nat size)
     else s b).

Definition write (size : Z) (s : ram) (buf : list Z) (block count : Z)
  : Z * ram :=
  (size * count, fun b => if b =? block then buf else s b).

Definition read (size : Z) (s : ram) (block count : Z) : Z * list Z * ram :=
  (size * count, s block, s).

Definition device (size count byte : Z) : bdev ram := {|
  block_size := size;
  block_count := count;
  total_size := size * count;
  erase_byte := byte;
  read_block := read size
|}.

End Ram.

(** ** cmd_bio, the console command

    The command as it is built without lib/partition and lib/cksum (the
    [partscan] and [crc32] subcommands are compiled out).  Every function
    of the block I/O library and of the platform is a parameter; the
    calls and the console output of a run are recorded as [cmd_event]s.
    A result of [None] stands for a run whose behaviour C leaves
    undefined or target-dependent: an argument read past [argv], a
    division by an elapsed time of zero, an [off_t] sum out of range, a
    read that reports more than was asked for. *)

(** The fields of [cmd_args] that [cmd_bio] reads: the text of the
    argument and its value as an [unsigned long]. *)
Record cmd_args : Type := { str : string; u : Z }.

(** Where [bio_read] stores: at an address the caller gave, or in the
    256-byte buffer of [dump]. *)
Inductive buffer : Type := AtAddress (address : Z) | DumpBuffer.

Inductive level : Type := ALWAYS | INFO.

(** An argument of [printf]. *)
Inductive parg : Type := PStr (s : string) | PInt (z : Z).

Inductive cmd_event (handle : Type) : Type :=
| CPrintf (fmt : string) (args : list parg)
| CDprintf (lvl : level) (fmt : string) (args : list parg)
| CDumpDevices
| COpen (name : string) (dev : option handle)
| CClose (dev : handle)
| CTime (now : Z)
| CRead (dev : handle) (buf : buffer) (offset len : Z) (ret : Z)
| CWrite (dev : handle) (address offset len : Z) (ret : Z)
| CErase (dev : handle) (offset len : Z) (ret : Z)
| CIoctl (dev : handle) (request arg : Z) (ret : Z)
| CUnregister (dev : handle)
| CHexdump (data : list Z) (offset : Z)
| CTest (dev : handle) (e : event).

Arguments CPrintf {handle} _ _.
Arguments CDprintf {handle} _ _ _.
Arguments CDumpDevices {handle}.
Arguments COpen {handle} _ _.
Arguments CClose {handle} _.
Arguments CTime {handle} _.
Arguments CRead {handle} _ _ _ _ _.
Arguments CWrite {handle} _ _ _ _ _.
Arguments CErase {handle} _ _ _ _.
Arguments CIoctl {handle} _ _ _ _.
Arguments CUnregister {handle} _.
Arguments CHexdump {handle} _ _.
Arguments CTest {handle} _ _.

Module CIO.

(** A computation of the command: a value, or [None] when the run is
    undefined from some point on; the state; the events so far. *)
Definition CM (S H A : Type) : Type :=
  S -> option A * S * list (cmd_event H).

Definition cret {S H A} (a : A) : CM S H A := fun s => (Some a, s, []).

Definition undefined {S H A} : CM S H A := fun s => (None, s, []).

Definition cbind {S H A B} (m : CM S H A) (f : A -> CM S H B) : CM S H B :=
  fun s =>
    let '(a, s1, t1) := m s in
    match a with
    | None => (None, s1, t1)
    | Some a =>
        let '(b, s2, t2) := f a s1 in
        (b, s2, t1 ++ t2)
    end.

Definition cemit {S H} (e : cmd_event H) : CM S H unit :=
  fun s => (Some tt, s, [e]).

End CIO.

Import CIO.

Notation "x <~ m ;; k" := (cbind m (fun x => k))
  (at level 61, m at next level, right associativity).
Notation "m ;;~ k" := (cbind m (fun _ => k))
  (at level 61, right associativity).

(** Conversions to [int], [uint32_t], [uint64_t] and [off_t]. *)
Definition to_int (z : Z) : Z := (z + 2 ^ 31) mod 2 ^ 32 - 2 ^ 31.
Definition to_uint32 (z : Z) : Z := z mod 2 ^ 32.
Definition to_uint64 (z : Z) : Z := z mod 2 ^ 64.
Definition to_off_t (z : Z) : Z := (z + 2 ^ 63) mod 2 ^ 64 - 2 ^ 63.
Definition off_max : Z := 2 ^ 63 - 1.

Section CmdBio.

(** Width of [size_t] and [unsigned long], and of [lk_time_t]. *)
Variable wbits : Z.
Variable tbits : Z.
Variable ERR_IO : Z.

Variable state : Type.
(** A [bdev_t *] that [bio_open] returned, and the fields behind it. *)
Variable handle : Type.
Variable bdev_of : handle -> bdev state.

Variable bio_dump_devices : state -> state.
Variable bio_open : state -> string -> option handle * state.
Variable bio_close : state -> handle -> state.
Variable bio_read : state -> handle -> buffer -> Z -> Z -> Z * list Z * state.
Variable bio_write : state -> handle -> Z -> Z -> Z -> Z * state.
Variable bio_erase : handle -> state -> Z -> Z -> Z * state.
Variable bio_write_block : handle -> state -> list Z -> Z -> Z -> Z * state.
Variable bio_ioctl : state -> handle -> Z -> Z -> Z * state.
Variable bio_unregister_device : state -> handle -> state.
Variable current_time : state -> Z * state.

Local Abbreviation CM' := (CM state handle).

Definition c_printf (fmt : string) (args : list parg) : CM' unit :=
  cemit (CPrintf fmt args).

Definition c_dprintf (lvl : level) (fmt : string) (args : list parg)
  : CM' unit :=
  cemit (CDprintf lvl fmt args).

(** [argv[k]]. *)
Definition arg (argv : list cmd_args) (k : nat) : CM' cmd_args :=
  match nth_error argv k with
  | Some a => cret a
  | None => undefined
  end.

Definition c_bio_open (name : string) : CM' (option handle) :=
  fun s =>
    let '(dev, s') := bio_open s name in
    (Some dev, s', [COpen name dev]).

Definition c_bio_close (dev : handle) : CM' unit :=
  fun s => (Some tt, bio_close s dev, [CClose dev]).

Definition c_current_time : CM' Z :=
  fun s =>
    let '(now, s') := current_time s in
    (Some now, s', [CTime now]).

Definition c_bio_read (dev : handle) (buf : buffer) (offset len : Z)
  : CM' (Z * list Z) :=
  fun s =>
    let '(r, data, s') := bio_read s dev buf offset len in
    (Some (r, data), s', [CRead dev buf offset len r]).

Definition c_bio_write (dev : handle) (address offset len : Z) : CM' Z :=
  fun s =>
    let '(r, s') := bio_write s dev address offset len in
    (Some r, s', [CWrite dev address offset len r]).

Definition c_bio_erase (dev : handle) (offset len : Z) : CM' Z :=
  fun s =>
    let '(r, s') := bio_erase dev s offset len in
    (Some r, s', [CErase dev offset len r]).

Definition c_bio_ioctl (dev : handle) (request a : Z) : CM' Z :=
  fun s =>
    let '(r, s') := bio_ioctl s dev request a in
    (Some r, s', [CIoctl dev request a r]).

(** The call [bio_test_device(dev)]. *)
Definition c_bio_test_device (dev : handle) : CM' Z :=
  fun s =>
    let '(r, s', t) :=
      bio_test_device wbits ERR_IO (bio_erase dev) (bio_write_block dev)
                      (bdev_of dev) s in
    (Some r, s', map (CTest dev) t).

(** The label [usage]. *)
Definition usage (argv : list cmd_args) : CM' Z :=
  a0 <~ arg argv 0 ;;
  c_printf "%s list\n" [PStr (str a0)] ;;~
  c_printf "%s read <device> <address> <offset> <len>\n" [PStr (str a0)] ;;~
  c_printf "%s write <device> <address> <offset> <len>\n" [PStr (str a0)] ;;~
  c_printf "%s dump <device> <offset> <len>\n" [PStr (str a0)] ;;~
  c_printf "%s erase <device> <offset> <len>\n" [PStr (str a0)] ;;~
  c_printf "%s ioctl <device> <request> <arg>\n" [PStr (str a0)] ;;~
  c_printf "%s remove <device>\n" [PStr (str a0)] ;;~
  c_printf "%s test <device>\n" [PStr (str a0)] ;;~
  cret (-1).

(** The label [notenoughargs]. *)
Definition notenoughargs (argv : list cmd_args) : CM' Z :=
  c_printf "not enough arguments:\n" [] ;;~
  usage argv.

(** [bio_open(argv[2].str)] and the test of its result: the
    continuation runs on the device, a null result ends the command. *)
Definition with_device (argv : list cmd_args) (k : handle -> CM' Z) : CM' Z :=
  a2 <~ arg argv 2 ;;
  dev <~ c_bio_open (str a2) ;;
  match dev with
  | None =>
      c_printf "error opening block device\n" [] ;;~
      cret (-1)
  | Some dev => k dev
  end.

(** The line that reports a timed transfer; the rate divides by the
    elapsed time. *)
Definition report_transfer (fmt : string) (err t : Z) : CM' unit :=
  if t =? 0 then undefined
  else
    c_dprintf INFO fmt
      [PInt (to_int err); PInt (to_uint32 t);
       PInt (to_uint32 (to_uint64 (to_uint64 err * 1000) / t))].

(** A transfer between two readings of the clock. *)
Definition timed (fmt : string) (transfer : CM' Z) : CM' Z :=
  t0 <~ c_current_time ;;
  err <~ transfer ;;
  t1 <~ c_current_time ;;
  report_transfer fmt err ((t1 - t0) mod 2 ^ tbits) ;;~
  cret err.

(** The loop of [dump], with [fuel] iterations left. *)
Fixpoint dump_loop (fuel : nat) (dev : handle) (name : string)
         (offset len : Z) : CM' unit :=
  match fuel with
  | O => cret tt
  | S fuel' =>
      if negb (len >? 0) then cret tt
      else
        let amt := Z.min 256 len in
        r <~ c_bio_read dev DumpBuffer offset amt ;;
        let '(err, buf) := r in
        if err <? 0 then
          c_dprintf ALWAYS "read error %s %zu@%zu (err %d)\n"
            [PStr name; PInt amt; PInt (to_size_t wbits offset);
             PInt (to_int err)]
        else if amt <? to_size_t wbits err then undefined
        else
          cemit (CHexdump (firstn (Z.to_nat err) buf) offset) ;;~
          if negb (to_size_t wbits err =? amt) then
            c_dprintf ALWAYS "short read from %s @%zu (wanted %zu, got %zu)\n"
              [PStr name; PInt (to_size_t wbits offset); PInt amt;
               PInt (to_size_t wbits err)]
          else if off_max <? offset + amt then undefined
          else dump_loop fuel' dev name (offset + amt) (len - amt)
  end.

Definition cmd_bio (argc : Z) (argv : list cmd_args) : CM' Z :=
  if argc <? 2 then notenoughargs argv
  else
    a1 <~ arg argv 1 ;;
    if String.eqb (str a1) "list" then
      (fun s => (Some tt, bio_dump_devices s, [CDumpDevices])) ;;~
      cret 0
    else if String.eqb (str a1) "read" then
      if argc <? 6 then notenoughargs argv
      else
        a3 <~ arg argv 3 ;;
        a4 <~ arg argv 4 ;;
        a5 <~ arg argv 5 ;;
        let address := to_size_t wbits (u a3) in
        let offset := to_off_t (u a4) in
        let len := to_size_t wbits (u a5) in
        with_device argv (fun dev =>
          err <~ timed "bio_read returns %d, took %u msecs (%d bytes/sec)\n"
                   (r <~ c_bio_read dev (AtAddress address) offset len ;;
                    cret (fst r)) ;;
          c_bio_close dev ;;~
          cret (to_int err))
    else if String.eqb (str a1) "write" then
      if argc <? 6 then notenoughargs argv
      else
        a3 <~ arg argv 3 ;;
        a4 <~ arg argv 4 ;;
        a5 <~ arg argv 5 ;;
        let address := to_size_t wbits (u a3) in
        let offset := to_off_t (u a4) in
        let len := to_size_t wbits (u a5) in
        with_device argv (fun dev =>
          err <~ timed "bio_write returns %d, took %u msecs (%d bytes/sec)\n"
                   (c_bio_write dev address offset len) ;;
          c_bio_close dev ;;~
          cret (to_int err))
    else if String.eqb (str a1) "dump" then
      if argc <? 5 then notenoughargs argv
      else
        a3 <~ arg argv 3 ;;
        a4 <~ arg argv 4 ;;
        let offset := to_off_t (u a3) in
        let len := to_size_t wbits (u a4) in
        with_device argv (fun dev =>
          a2 <~ arg argv 2 ;;
          dump_loop (Z.to_nat len) dev (str a2) offset len ;;~
          c_bio_close dev ;;~
          cret 0)
    else if String.eqb (str a1) "erase" then
      if argc <? 5 then notenoughargs argv
      else
        a3 <~ arg argv 3 ;;
        a4 <~ arg argv 4 ;;
        let offset := to_off_t (u a3) in
        let len := to_size_t wbits (u a4) in
        with_device argv (fun dev =>
          err <~ timed "bio_erase returns %d, took %u msecs (%d bytes/sec)\n"
                   (c_bio_erase dev offset len) ;;
          c_bio_close dev ;;~
          cret (to_int err))
    else if String.eqb (str a1) "ioctl" then
      if argc <? 4 then notenoughargs argv
      else
        a3 <~ arg argv 3 ;;
        let request := to_int (u a3) in
        a <~ (if argc =? 5
              then a4 <~ arg argv 4 ;; cret (to_int (u a4))
              else cret 0) ;;
        with_device argv (fun dev =>
          err <~ c_bio_ioctl dev request a ;;
          c_dprintf INFO "bio_ioctl returns %d\n" [PInt err] ;;~
          c_bio_close dev ;;~
          cret err)
    else if String.eqb (str a1) "remove" then
      if argc <? 3 then notenoughargs argv
      else
        with_device argv (fun dev =>
          (fun s => (Some tt, bio_unregister_device s dev, [CUnregister dev]))
          ;;~
          c_bio_close dev ;;~
          cret 0)
    else if String.eqb (str a1) "test" then
      if argc <? 3 then notenoughargs argv
      else
        with_device argv (fun dev =>
          err <~ c_bio_test_device dev ;;
          c_bio_close dev ;;~
          cret err)
    else
      c_printf "unrecognized subcommand\n" [] ;;~
      usage argv.

End CmdBio.

Arguments cmd_bio _ _ _ {state handle} _ _ _ _ _ _ _ _ _ _ _ _ _.
Arguments arg {state handle} _ _ _.
Arguments c_printf {state handle} _ _ _.
Arguments c_dprintf {state handle} _ _ _ _.
Arguments c_bio_open {state handle} _ _ _.
Arguments c_bio_close {state handle} _ _ _.
Arguments c_current_time {state handle} _ _.
Arguments c_bio_read {state handle} _ _ _ _ _ _.
Arguments c_bio_write {state handle} _ _ _ _ _ _.
Arguments c_bio_erase {state handle} _ _ _ _ _.
Arguments c_bio_ioctl {state handle} _ _ _ _ _.
Arguments c_bio_test_device _ _ {state handle} _ _ _ _ _.
Arguments with_device {state handle} _ _ _ _.
Arguments report_transfer {state handle} _ _ _ _.
Arguments timed _ {state handle} _ _ _ _.
Arguments dump_loop _ {state handle} _ _ _ _ _ _.
Arguments usage {state handle} _.
Arguments notenoughargs {state handle} _.

(** The number of arguments ([argc]) each subcommand of [cmd_bio] asks
    for; [None] for a word that is no subcommand. *)
Definition required_argc (subcommand : string) : option Z :=
  if String.eqb subcommand "list" then Some 2
  else if String.eqb subcommand "read" then Some 6
  else if String.eqb subcommand "write" then Some 6
  else if String.eqb subcommand "dump" then Some 5
  else if String.eqb subcommand "erase" then Some 5
  else if String.eqb subcommand "ioctl" then Some 4
  else if String.eqb subcommand "remove" then Some 3
  else if String.eqb subcommand "test" then Some 3
  else None.

(** The eight lines of the usage text. *)
Definition usage_lines {handle} (name : string) : list (cmd_event handle) :=
  [CPrintf "%s list\n" [PStr name];
   CPrintf "%s read <device> <address> <offset> <len>\n" [PStr name];
   CPrintf "%s write <device> <address> <offset> <len>\n" [PStr name];
   CPrintf "%s dump <device> <offset> <len>\n" [PStr name];
   CPrintf "%s erase <device> <offset> <len>\n" [PStr name];
   CPrintf "%s ioctl <device> <request> <arg>\n" [PStr name];
   CPrintf "%s remove <device>\n" [PStr name];
   CPrintf "%s test <device>\n" [PStr name]].






(** The offset and length of a read, its status apart. *)
Definition read_request {handle} (e : cmd_event handle) : option (Z * Z) :=
  match e with
  | CRead _ _ offset len _ => Some (offset, len)
  | _ => None
  end.

(** The reads of a trace: offset, length, status. *)
Fixpoint reads_of {handle} (t : list (cmd_event handle)) : list (Z * Z * Z) :=
  match t with
  | [] => []
  | CRead _ _ offset len ret :: t' => (offset, len, ret) :: reads_of t'
  | _ :: t' => reads_of t'
  end.

(** A read that returned all it was asked for, as [dump] tests it:
    the status is not negative and [(size_t)err == amt]. *)
Definition full_read (wbits : Z) (r : Z * Z * Z) : Prop :=
  0 <= snd r /\ to_size_t wbits (snd r) = snd (fst r).

(** The pieces of at most 256 bytes that cover [len] bytes from
    [offset]: piece [i] starts at [offset + 256 * i]. *)
Definition chunks (offset len : Z) : list (Z * Z) :=
  map (fun i => (offset + 256 * Z.of_nat i,
                 Z.min 256 (len - 256 * Z.of_nat i)))
      (seq 0 (Z.to_nat ((len + 255) / 256))).

(** ** The console on the simulated device

    One device, "ram0", the healthy simulated device; byte transfers read
    its blocks end to end.  The clock stands still. *)

Module SimCmd.

Definition bdev_of (_ : unit) : bdev Sim.ram := Sim.device Sim.healthy.

Definition bio_dump_devices (s : Sim.ram) : Sim.ram := s.

Definition bio_open (s : Sim.ram) (name : string) : option unit * Sim.ram :=
  (if String.eqb name "ram0" then Some tt else None, s).

Definition bio_close (s : Sim.ram) (_ : unit) : Sim.ram := s.

Definition bio_read (s : Sim.ram) (_ : unit) (_ : buffer) (offset len : Z)
  : Z * list Z * Sim.ram :=
  let data := firstn (Z.to_nat len) (skipn (Z.to_nat offset) (List.concat s)) in
  (Z.of_nat (List.length data), data, s).

Definition bio_write (s : Sim.ram) (_ : unit) (address offset len : Z)
  : Z * Sim.ram :=
  (-2, s).

Definition bio_ioctl (s : Sim.ram) (_ : unit) (request a : Z) : Z * Sim.ram :=
  (-24, s).

Definition bio_unregister_device (s : Sim.ram) (_ : unit) : Sim.ram := s.

Definition current_time (s : Sim.ram) : Z * Sim.ram := (0, s).

Definition word (text : string) (value : Z) : cmd_args :=
  {| str := text; u := value |}.

Definition run (argc : Z) (argv : list cmd_args)
  : option Z * Sim.ram * list (cmd_event unit) :=
  cmd_bio Sim.wbits 32 Sim.ERR_IO bdev_of bio_dump_devices bio_open bio_close
          bio_read bio_write (fun _ => Sim.erase Sim.healthy)
          (fun _ => Sim.write Sim.healthy) bio_ioctl bio_unregister_device
          current_time argc argv Sim.fresh.

End SimCmd.

(** ** The signature *)

(** C8: [get_signature] is not injective: two distinct 32-bit block
    indices, 0 and 0x0101, have the same one-byte signature. *)
Theorem get_signature_not_injective :
  exists a b : Z,
    0 <= a < 2 ^ 32 /\ 0 <= b < 2 ^ 32 /\ a <> b /\
    get_signature a = get_signature b.
Proof.
  exists 0, 257. repeat split; try lia; try discriminate.
Qed.

Lemma to_uint8_range (z : Z) : 0 <= to_uint8 z < 256.
Proof.
  unfold to_uint8. change 255 with (Z.ones 8).
  rewrite Z.land_ones by lia. apply Z.mod_pos_bound. lia.
Qed.

Lemma to_uint8_idem (z : Z) : to_uint8 (to_uint8 z) = to_uint8 z.
Proof.
  unfold to_uint8. rewrite <- Z.land_assoc. reflexivity.
Qed.

Lemma get_signature_byte (word : Z) :
  to_uint8 (get_signature word) = get_signature word.
Proof. unfold get_signature. apply to_uint8_idem. Qed.

(** ** Integer conversions *)

Section Conversions.

Variable wbits : Z.

Lemma ssize_bounds_wbits (z : Z) :
  ssize_t_range wbits z -> 1 <= wbits.
Proof.
  unfold ssize_t_range, ssize_min, ssize_max. intros H.
  destruct (Z_lt_le_dec (wbits - 1) 0) as [Hneg | Hpos]; [| lia].
  rewrite Z.pow_neg_r in H by lia. lia.
Qed.

Lemma pow_wbits_double : 1 <= wbits -> 2 ^ wbits = 2 * 2 ^ (wbits - 1).
Proof.
  intros H. replace wbits with (Z.succ (wbits - 1)) at 1 by lia.
  apply Z.pow_succ_r. lia.
Qed.

Lemma to_ssize_t_id (z : Z) :
  ssize_t_range wbits z -> to_ssize_t wbits z = z.
Proof.
  intros H. pose proof (ssize_bounds_wbits z H) as Hw.
  unfold ssize_t_range, ssize_min, ssize_max in H. unfold to_ssize_t.
  rewrite (pow_wbits_double Hw). rewrite Z.mod_small; lia.
Qed.

Lemma to_size_t_id (z : Z) :
  0 <= z < 2 ^ wbits -> to_size_t wbits z = z.
Proof. intros H. unfold to_size_t. apply Z.mod_small. exact H. Qed.

Lemma ssize_max_lt_pow (z : Z) :
  0 <= z <= ssize_max wbits -> 0 <= z < 2 ^ wbits.
Proof.
  intros H.
  assert (Hr : ssize_t_range wbits z)
    by (unfold ssize_t_range, ssize_min, ssize_max in *; lia).
  pose proof (ssize_bounds_wbits z Hr) as Hw.
  rewrite (pow_wbits_double Hw). unfold ssize_max in H. lia.
Qed.

(** A block size never converts to a shorter non-negative count. *)
Lemma to_ssize_t_short (n size : Z) :
  0 <= n < size -> size < 2 ^ wbits -> to_ssize_t wbits size <> n.
Proof.
  intros Hn Hs Heq. unfold to_ssize_t in Heq.
  set (m := 2 ^ wbits) in *. set (p := 2 ^ (wbits - 1)) in *.
  assert (Hm : 0 < m) by lia.
  assert (Hp : 0 <= p) by (apply Z.pow_nonneg; lia).
  pose proof (Z.div_mod (size + p) m ltac:(lia)) as Hdm.
  pose proof (Z.mod_pos_bound (size + p) m Hm) as Hb.
  assert (Hq : 0 <= (size + p) / m) by (apply Z.div_pos; lia).
  set (q := (size + p) / m) in *.
  assert (Hsz : size = m * q + n) by lia.
  destruct (Z.eq_dec q 0) as [Hq0 | Hq0]; [subst q; rewrite Hq0 in Hsz; lia |].
  assert (m <= m * q) by nia. lia.
Qed.

End Conversions.

(** ** Pattern validation *)

Section Validation.

Variable wbits : Z.
Variable state : Type.

Lemma compare_loop_spec (contents pattern : list Z) (pattern_length : Z) :
  forall (fuel : nat) (i : Z),
    0 <= i -> i + Z.of_nat fuel < 2 ^ wbits ->
    (compare_loop wbits fuel i contents pattern pattern_length = true <->
     forall k, i <= k < i + Z.of_nat fuel ->
       nth (Z.to_nat k) contents 0
       = nth (Z.to_nat (k mod pattern_length)) pattern 0).
Proof.
  induction fuel as [| fuel IH]; intros i Hi Hb.
  - simpl. split; [intros _ k Hk; lia | reflexivity].
  - cbn [compare_loop].
    rewrite to_size_t_id by lia.
    destruct (Z.eqb_spec (nth (Z.to_nat i) contents 0)
                (nth (Z.to_nat (i mod pattern_length)) pattern 0))
      as [Heq | Hne]; cbn [negb].
    + rewrite IH by lia. split.
      * intros H k Hk.
        destruct (Z.eq_dec k i) as [-> | Hki]; [exact Heq | apply H; lia].
      * intros H k Hk. apply H. lia.
    + split; [discriminate |].
      intros H. exfalso. apply Hne. apply H. lia.
Qed.

(** [is_valid_block] is one read followed by a pure verdict. *)
Lemma is_valid_block_unfold (device : bdev state) (block_num : Z)
      (pattern : list Z) (pattern_length : Z) (s : state) :
  is_valid_block wbits device block_num pattern pattern_length s =
  let '(n_bytes, contents, s') := read_block device s block_num 1 in
  (if (n_bytes <? 0) || negb (n_bytes =? to_ssize_t wbits (block_size device))
   then false
   else compare_loop wbits (Z.to_nat (block_size device)) 0 contents pattern
                     pattern_length,
   s', [EvRead block_num 1 n_bytes]).
Proof.
  unfold is_valid_block, bind, do_read_block.
  destruct (read_block device s block_num 1) as [[n buf] s'].
  destruct ((n <? 0) || negb (n =? to_ssize_t wbits (block_size device)));
    reflexivity.
Qed.

Lemma is_valid_block_events (device : bdev state) (block_num : Z)
      (pattern : list Z) (pattern_length : Z) (s : state) :
  exists n,
    events (is_valid_block wbits device block_num pattern pattern_length s)
    = [EvRead block_num 1 n].
Proof.
  rewrite is_valid_block_unfold.
  destruct (read_block device s block_num 1) as [[n buf] s'].
  exists n. reflexivity.
Qed.

(** C4: when the read returns exactly [block_size] bytes,
    [is_valid_block] answers true exactly when every byte at position
    [k] of the block equals [pattern[k mod pattern_length]] (for a
    one-byte pattern: when every byte is that byte); when the read fails
    or returns fewer bytes, it answers false.  The status of the read is
    an [ssize_t], the block size a [size_t] and the pattern not empty. *)
Theorem is_valid_block_spec (device : bdev state) (block_num : Z)
        (pattern : list Z) (s : state) :
  pattern <> [] ->
  0 <= block_size device < 2 ^ wbits ->
  ssize_t_range wbits (fst (fst (read_block device s block_num 1))) ->
  let n_bytes := fst (fst (read_block device s block_num 1)) in
  let contents := snd (fst (read_block device s block_num 1)) in
  let ok :=
    value (is_valid_block wbits device block_num pattern
                          (Z.of_nat (List.length pattern)) s) in
  (n_bytes = block_size device ->
   (ok = true <-> matches_pattern (block_size device) contents pattern)) /\
  (n_bytes = block_size device ->
   forall c, pattern = [c] ->
     (ok = true <->
      forall k, 0 <= k < block_size device ->
        nth (Z.to_nat k) contents 0 = c)) /\
  (n_bytes < 0 \/ n_bytes < block_size device -> ok = false).
Proof.
  intros Hpat Hsize Hrange n_bytes contents ok.
  subst n_bytes contents ok.
  rewrite is_valid_block_unfold.
  destruct (read_block device s block_num 1) as [[n buf] s'].
  cbn [fst snd value] in *.
  assert (Hfull : n = block_size device ->
                  (n <? 0) || negb (n =? to_ssize_t wbits (block_size device))
                  = false).
  { intros ->. rewrite to_ssize_t_id by exact Hrange.
    rewrite Z.eqb_refl. destruct (Z.ltb_spec (block_size device) 0); [lia |].
    reflexivity. }
  assert (Hmain : n = block_size device ->
            ((if (n <? 0) || negb (n =? to_ssize_t wbits (block_size device))
              then false
              else compare_loop wbits (Z.to_nat (block_size device)) 0 buf
                     pattern (Z.of_nat (List.length pattern))) = true <->
             matches_pattern (block_size device) buf pattern)).
  { intros Hn. rewrite (Hfull Hn).
    rewrite compare_loop_spec by lia.
    unfold matches_pattern. rewrite Z2Nat.id by lia.
    split; intros H k Hk; apply H; lia. }
  split; [exact Hmain |]. split.
  - intros Hn c ->. rewrite (Hmain Hn). unfold matches_pattern.
    split; intros H k Hk; specialize (H k Hk).
    + cbn [List.length] in H. rewrite Z.mod_1_r in H. exact H.
    + cbn [List.length]. rewrite Z.mod_1_r. exact H.
  - intros [Hneg | Hshort].
    + destruct (Z.ltb_spec n 0); [reflexivity | lia].
    + destruct (Z.ltb_spec n 0) as [| Hnn]; [reflexivity |].
      destruct (Z.eqb_spec n (to_ssize_t wbits (block_size device)))
        as [Heq | Hne]; [| reflexivity].
      exfalso. symmetry in Heq. revert Heq.
      apply to_ssize_t_short; lia.
Qed.

End Validation.

(** ** Scanning every block *)

Section Scan.

Variable wbits : Z.
Variable state : Type.
Variable device : bdev state.

Lemma zrange_length (n : nat) : forall b, List.length (zrange b n) = n.
Proof. induction n as [| n IH]; intros b; simpl; [| rewrite IH]; reflexivity. Qed.

Lemma zrange_In (n : nat) :
  forall b x, In x (zrange b n) <-> b <= x < b + Z.of_nat n.
Proof.
  induction n as [| n IH]; intros b x; simpl.
  - lia.
  - rewrite IH. lia.
Qed.

Lemma block_indices_In (x : Z) :
  In x (block_indices device) <-> 0 <= x < block_count device.
Proof. unfold block_indices. rewrite zrange_In. lia. Qed.

Lemma block_indices_length :
  0 <= block_count device ->
  Z.of_nat (List.length (block_indices device)) = block_count device.
Proof. intros H. unfold block_indices. rewrite zrange_length. lia. Qed.

Lemma count_invalid_cons (ok : bool) (oks : list bool) :
  count_invalid (ok :: oks)
  = (if negb ok then 1 else 0) + count_invalid oks.
Proof.
  unfold count_invalid. destruct ok; cbn [filter negb List.length]; lia.
Qed.

Lemma count_invalid_bounds (oks : list bool) :
  0 <= count_invalid oks <= Z.of_nat (List.length oks).
Proof.
  induction oks as [| ok oks IH].
  - unfold count_invalid. simpl. lia.
  - rewrite count_invalid_cons. cbn [List.length]. destruct ok; cbn [negb]; lia.
Qed.

Lemma validate_blocks_cons (pattern_of : Z -> list Z) (b : Z)
      (rest : list Z) (s : state) :
  validate_blocks wbits device pattern_of (b :: rest) s =
  let r1 := is_valid_block wbits device b (pattern_of b) 1 s in
  let r2 := validate_blocks wbits device pattern_of rest (final r1) in
  (value r1 :: value r2, final r2, events r1 ++ events r2).
Proof.
  cbn [validate_blocks]. unfold bind, ret.
  destruct (is_valid_block wbits device b (pattern_of b) 1 s) as [[ok s1] t1].
  cbn [final value events fst snd].
  destruct (validate_blocks wbits device pattern_of rest s1) as [[oks s2] t2].
  cbn [final value events fst snd]. rewrite app_nil_r. reflexivity.
Qed.

Lemma validate_blocks_length (pattern_of : Z -> list Z) (bnums : list Z) :
  forall s,
    List.length (value (validate_blocks wbits device pattern_of bnums s))
    = List.length bnums.
Proof.
  induction bnums as [| b rest IH]; intros s.
  - reflexivity.
  - rewrite validate_blocks_cons. cbn [value fst List.length].
    f_equal. apply IH.
Qed.

(** A scan reads each of its blocks once, in order, and does nothing
    else. *)
Lemma validate_blocks_events (pattern_of : Z -> list Z) (bnums : list Z) :
  forall s,
    let t := events (validate_blocks wbits device pattern_of bnums s) in
    map ev_block t = bnums /\ Forall (fun e => is_read e = true) t.
Proof.
  induction bnums as [| b rest IH]; intros s.
  - split; [reflexivity | constructor].
  - cbn zeta. rewrite validate_blocks_cons. cbn [events snd].
    destruct (is_valid_block_events wbits state device b (pattern_of b) 1 s)
      as [n Hn].
    rewrite Hn. cbn [app map ev_block].
    destruct (IH (final (is_valid_block wbits device b (pattern_of b) 1 s)))
      as [IHb IHr].
    split; [f_equal; exact IHb | constructor; [reflexivity | exact IHr]].
Qed.

Lemma scan_count_fits (pattern_of : Z -> list Z) (s : state) :
  0 <= block_count device ->
  0 <= count_invalid
         (value (validate_blocks wbits device pattern_of
                   (block_indices device) s))
    <= block_count device.
Proof.
  intros Hbc.
  pose proof (count_invalid_bounds
                (value (validate_blocks wbits device pattern_of
                          (block_indices device) s))) as H.
  rewrite validate_blocks_length, block_indices_length in H by exact Hbc.
  exact H.
Qed.

(** The counting loop of [erase_test] is a scan that adds the failures
    to its counter, as long as the counter cannot wrap. *)
Lemma erase_validate_loop_scan :
  forall (fuel : nat) (bnum acc : Z) (s : state),
    0 <= acc -> acc + Z.of_nat fuel < 2 ^ wbits ->
    erase_validate_loop wbits device fuel bnum acc s =
    let r := validate_blocks wbits device (fun _ => [erase_byte device])
                             (zrange bnum fuel) s in
    (acc + count_invalid (value r), final r, events r).
Proof.
  induction fuel as [| fuel IH]; intros bnum acc s Hacc Hfit.
  - cbn. unfold ret, count_invalid. cbn. rewrite Z.add_0_r. reflexivity.
  - cbn [zrange]. rewrite validate_blocks_cons.
    cbn [erase_validate_loop]. unfold bind at 1.
    destruct (is_valid_block wbits device bnum [erase_byte device] 1 s)
      as [[ok s1] t1].
    cbn [final value events fst snd].
    rewrite IH.
    + cbn zeta.
      destruct (validate_blocks wbits device (fun _ => [erase_byte device])
                  (zrange (bnum + 1) fuel) s1) as [[oks s2] t2].
      cbn [final value events fst snd]. rewrite count_invalid_cons.
      destruct ok; cbn [negb].
      * reflexivity.
      * rewrite to_size_t_id by lia. rewrite Z.add_assoc. reflexivity.
    + destruct ok; cbn [negb]; [lia |]. rewrite to_size_t_id by lia. lia.
    + destruct ok; cbn [negb]; [lia |]. rewrite to_size_t_id by lia. lia.
Qed.

(** The same for the second loop of [write_test]. *)
Lemma verify_loop_scan :
  forall (fuel : nat) (bnum acc : Z) (s : state),
    0 <= acc -> acc + Z.of_nat fuel < 2 ^ wbits ->
    verify_loop wbits device fuel bnum acc s =
    let r := validate_blocks wbits device (fun b => [get_signature b])
                             (zrange bnum fuel) s in
    (acc + count_invalid (value r), final r, events r).
Proof.
  induction fuel as [| fuel IH]; intros bnum acc s Hacc Hfit.
  - cbn. unfold ret, count_invalid. cbn. rewrite Z.add_0_r. reflexivity.
  - cbn [zrange]. rewrite validate_blocks_cons.
    cbn [verify_loop]. unfold bind at 1.
    destruct (is_valid_block wbits device bnum [get_signature bnum] 1 s)
      as [[ok s1] t1].
    cbn [final value events fst snd].
    rewrite IH.
    + cbn zeta.
      destruct (validate_blocks wbits device (fun b => [get_signature b])
                  (zrange (bnum + 1) fuel) s1) as [[oks s2] t2].
      cbn [final value events fst snd]. rewrite count_invalid_cons.
      destruct ok; cbn [negb].
      * reflexivity.
      * rewrite to_size_t_id by lia. rewrite Z.add_assoc. reflexivity.
    + destruct ok; cbn [negb]; [lia |]. rewrite to_size_t_id by lia. lia.
    + destruct ok; cbn [negb]; [lia |]. rewrite to_size_t_id by lia. lia.
Qed.

End Scan.

(** ** erase_test *)

Section EraseTest.

Variable wbits : Z.
Variable ERR_IO : Z.
Variable state : Type.
Variable bio_erase : state -> Z -> Z -> Z * state.
Variable device : bdev state.

Local Abbreviation erase_test' := (erase_test wbits ERR_IO bio_erase device).
Local Abbreviation erase_scan :=
  (validate_blocks wbits device (fun _ => [erase_byte device])
                   (block_indices device)).

(** The three ways out of [erase_test]. *)
Lemma erase_test_unfold (s : state) :
  erase_test' s =
  let err := fst (bio_erase s 0 (total_size device)) in
  let s1 := snd (bio_erase s 0 (total_size device)) in
  let head := [EvPrint "erasing device...\n" [];
               EvErase 0 (total_size device) err] in
  if err <? 0 then (err, s1, head)
  else if negb (err =? total_size device) then (ERR_IO, s1, head)
  else
    let r := erase_validate_loop wbits device
               (Z.to_nat (block_count device)) 0 0 s1 in
    (to_ssize_t wbits (value r), final r,
     head ++ EvPrint "validating erase...\n" [] :: events r).
Proof.
  unfold erase_test, bind, printf, emit, do_bio_erase, ret.
  destruct (bio_erase s 0 (total_size device)) as [err s1].
  cbn [fst snd].
  destruct (err <? 0); [reflexivity |].
  destruct (negb (err =? total_size device)); [reflexivity |].
  destruct (erase_validate_loop wbits device (Z.to_nat (block_count device))
              0 0 s1) as [[n s2] t].
  cbn [value final events fst snd app]. rewrite app_nil_r. reflexivity.
Qed.

(** Once [bio_erase] has reported the whole device erased, [erase_test]
    is the scan of every block, provided the block count fits the
    returned [ssize_t]. *)
Lemma erase_test_scan (s : state) :
  let err := fst (bio_erase s 0 (total_size device)) in
  let s1 := snd (bio_erase s 0 (total_size device)) in
  0 <= err -> err = total_size device ->
  0 <= block_count device <= ssize_max wbits ->
  erase_test' s =
  (count_invalid (value (erase_scan s1)), final (erase_scan s1),
   [EvPrint "erasing device...\n" []; EvErase 0 (total_size device) err;
    EvPrint "validating erase...\n" []] ++ events (erase_scan s1)).
Proof.
  intros err s1 Hpos Hall Hfit. rewrite erase_test_unfold.
  fold err s1. cbn zeta.
  destruct (Z.ltb_spec err 0) as [| _]; [lia |].
  destruct (Z.eqb_spec err (total_size device)) as [_ | Hne];
    [| contradiction].
  cbn [negb].
  pose proof (ssize_max_lt_pow wbits _ Hfit) as Hpow.
  rewrite erase_validate_loop_scan by lia.
  cbn zeta. cbn [value final events fst snd]. fold (block_indices device).
  rewrite Z.add_0_l.
  rewrite to_ssize_t_id; [reflexivity |].
  pose proof (scan_count_fits wbits state device
                (fun _ => [erase_byte device]) s1 (proj1 Hfit)) as Hc.
  unfold ssize_t_range, ssize_min. unfold ssize_max in *.
  assert (0 <= 2 ^ (wbits - 1)) by (apply Z.pow_nonneg; lia). lia.
Qed.

(** A well-formed device whose erase returned its whole size as an
    [ssize_t] has a block count that fits an [ssize_t]. *)
Lemma erased_block_count_fits (err : Z) :
  bdev_wf device -> ssize_t_range wbits err -> err = total_size device ->
  0 <= err /\ 0 <= block_count device <= ssize_max wbits.
Proof.
  intros (Hbs & Hbc & Htot) [_ Hmax] Herr. rewrite Herr, Htot in *. nia.
Qed.

(** [erase_test] returns zero only after such an erase: whenever
    [bio_test_device] goes on to [write_test] on a well-formed device,
    the block count fits an [ssize_t]. *)
Lemma erase_test_zero_block_count_fits (s : state) :
  ERR_IO < 0 -> bdev_wf device ->
  ssize_t_range wbits (fst (bio_erase s 0 (total_size device))) ->
  value (erase_test' s) = 0 ->
  0 <= block_count device <= ssize_max wbits.
Proof.
  intros Hio Hwf Hrange. rewrite erase_test_unfold. cbn zeta.
  destruct (Z.ltb_spec (fst (bio_erase s 0 (total_size device))) 0)
    as [Hneg | Hnn]; [cbn; lia |].
  destruct (Z.eqb_spec (fst (bio_erase s 0 (total_size device)))
              (total_size device)) as [Heq | Hne]; [| cbn; lia].
  intros _. apply (erased_block_count_fits _ Hwf Hrange Heq).
Qed.

(** C2: when the single [bio_erase(device, 0, total_size)] call reports
    a negative status, or a count other than [total_size], [erase_test]
    returns a negative result (that status, or [ERR_IO]) and reads no
    block: its only events are the banner and the erase call. *)
Theorem erase_test_io_error (s : state) :
  ERR_IO < 0 ->
  let err := fst (bio_erase s 0 (total_size device)) in
  err < 0 \/ err <> total_size device ->
  let r := erase_test' s in
  value r < 0 /\
  value r = (if err <? 0 then err else ERR_IO) /\
  events r = [EvPrint "erasing device...\n" [];
              EvErase 0 (total_size device) err] /\
  filter is_read (events r) = [] /\
  final r = snd (bio_erase s 0 (total_size device)).
Proof.
  intros Hio err Hfail r. subst r. rewrite erase_test_unfold.
  fold err. cbn zeta.
  destruct (Z.ltb_spec err 0) as [Hneg | Hnn].
  - cbn. repeat split; try reflexivity. exact Hneg.
  - destruct (Z.eqb_spec err (total_size device)) as [Heq | Hne];
      [lia |].
    cbn. repeat split; try reflexivity. exact Hio.
Qed.

(** C3: on a well-formed device whose erase reported the full
    [total_size], [erase_test] returns exactly the number of blocks of
    [0 .. block_count) that fail validation against [[erase_byte]]: 0
    when every block validates.  Every block index is read, once and in
    order, whatever failed before it. *)
Theorem erase_test_counts_invalid_blocks (s : state) :
  bdev_wf device ->
  let err := fst (bio_erase s 0 (total_size device)) in
  let s1 := snd (bio_erase s 0 (total_size device)) in
  ssize_t_range wbits err ->
  err = total_size device ->
  let verdicts := value (erase_scan s1) in
  let r := erase_test' s in
  value r = count_invalid verdicts /\
  (Forall (fun ok => ok = true) verdicts -> value r = 0) /\
  List.length verdicts = Z.to_nat (block_count device) /\
  map ev_block (filter is_read (events r)) = block_indices device.
Proof.
  intros Hwf err s1 Hrange Hall verdicts r. subst verdicts r.
  destruct (erased_block_count_fits err Hwf Hrange Hall) as [Hpos Hfit].
  rewrite (erase_test_scan s Hpos Hall Hfit). fold err s1.
  cbn [value final events fst snd].
  split; [reflexivity |]. split; [| split].
  - intros Hok. unfold count_invalid.
    induction Hok as [| ok oks Hhd _ IH]; [reflexivity |].
    rewrite Hhd. exact IH.
  - rewrite validate_blocks_length. unfold block_indices.
    apply zrange_length.
  - cbn [app filter is_read].
    destruct (validate_blocks_events wbits state device
                (fun _ => [erase_byte device]) (block_indices device) s1)
      as [Hblocks Hreads].
    cbn zeta in Hblocks, Hreads.
    rewrite forallb_filter_id.
    + exact Hblocks.
    + apply forallb_forall. apply Forall_forall. exact Hreads.
Qed.

End EraseTest.

(** ** Lists of events *)

Section Traces.

Variables P Q : event -> Prop.
Hypothesis disjoint : forall e, P e -> Q e -> False.

(** In a run of [P] events closed by one last event, the only event
    outside [P] is that last one. *)
Lemma only_last_outside (pre0 : list event) (x : event) :
  Forall P pre0 ->
  forall pre y post,
    pre0 ++ [x] = pre ++ y :: post -> ~ P y ->
    pre = pre0 /\ y = x /\ post = [].
Proof.
  induction 1 as [| e pre0 He _ IH]; intros pre y post Heq Hy.
  - destruct pre as [| p pre]; cbn in Heq.
    + injection Heq as -> <-. repeat split.
    + injection Heq as _ Heq. destruct pre; discriminate.
  - destruct pre as [| p pre]; cbn in Heq.
    + injection Heq as -> _. contradiction.
    + injection Heq as -> Heq.
      destruct (IH _ _ _ Heq Hy) as (-> & -> & ->). repeat split.
Qed.

(** A [Q] event of a run of [P] events followed by [Q] events comes
    after the whole [P] run. *)
Lemma after_the_run (ps : list event) :
  Forall P ps ->
  forall qs pre e post,
    Forall Q qs -> ps ++ qs = pre ++ e :: post -> Q e ->
    exists mid, pre = ps ++ mid /\ Forall Q mid.
Proof.
  induction 1 as [| p ps Hp _ IH]; intros qs pre e post Hqs Heq He.
  - exists pre. split; [reflexivity |].
    cbn in Heq. rewrite Heq in Hqs.
    apply Forall_app in Hqs. apply Hqs.
  - destruct pre as [| p' pre]; cbn in Heq.
    + injection Heq as -> _. exfalso. exact (disjoint _ Hp He).
    + injection Heq as -> Heq.
      destruct (IH _ _ _ _ Hqs Heq He) as (mid & -> & Hmid).
      exists mid. split; [reflexivity | exact Hmid].
Qed.

End Traces.

(** ** write_test *)

Section WriteTest.

Variable wbits : Z.
Variable state : Type.
Variable bio_write_block : state -> list Z -> Z -> Z -> Z * state.
Variable device : bdev state.

Local Abbreviation write_test' := (write_test wbits bio_write_block device).
Local Abbreviation write_phase' := (write_phase bio_write_block device).
Local Abbreviation write_scan :=
  (validate_blocks wbits device (fun b => [get_signature b])
                   (block_indices device)).

(** The first loop writes the blocks in order, every one filled with
    its signature, until a write fails or the blocks run out. *)
Lemma write_loop_trace :
  forall (fuel : nat) (bnum : Z) (s : state),
    let r := write_loop bio_write_block device fuel bnum s in
    Forall (fun e => is_write e = true) (events r) /\
    match value r with
    | None =>
        map ev_block (events r) = zrange bnum fuel /\
        Forall (fun e => 0 <= ev_ret e) (events r)
    | Some err =>
        err < 0 /\
        exists pre b data,
          events r = pre ++ [EvWrite b 1 data err] /\
          Forall (fun e => 0 <= ev_ret e) pre
    end.
Proof.
  induction fuel as [| fuel IH]; intros bnum s.
  - cbn. repeat split; constructor.
  - cbn [write_loop]. unfold bind, do_bio_write_block.
    destruct (bio_write_block s
                (memset (get_signature bnum) (block_size device)) bnum 1)
      as [err s1].
    destruct (Z.ltb_spec err 0) as [Hneg | Hok].
    + cbn. split; [repeat constructor |]. split; [exact Hneg |].
      exists [], bnum, (memset (get_signature bnum) (block_size device)).
      split; [reflexivity | constructor].
    + specialize (IH (bnum + 1) s1). cbn zeta in IH.
      destruct (write_loop bio_write_block device fuel (bnum + 1) s1)
        as [[w s2] t].
      cbn [value events fst snd app] in *.
      destruct IH as [Hw Hrest]. split; [constructor; [reflexivity | exact Hw] |].
      destruct w as [e |].
      * destruct Hrest as (He & pre & b & data & -> & Hpre).
        split; [exact He |].
        exists (EvWrite bnum 1
                  (memset (get_signature bnum) (block_size device)) err
                :: pre), b, data.
        split; [reflexivity | constructor; [exact Hok | exact Hpre]].
      * destruct Hrest as [Hb Hr]. cbn [map ev_block zrange].
        split; [f_equal; exact Hb | constructor; [exact Hok | exact Hr]].
Qed.

(** Every write succeeded exactly when the first loop ran to its end. *)
Lemma writes_succeed_iff (s : state) :
  writes_succeed bio_write_block device s <-> value (write_phase' s) = None.
Proof.
  unfold writes_succeed, write_phase.
  pose proof (write_loop_trace (Z.to_nat (block_count device)) 0 s) as H.
  cbn zeta in H. destruct H as [_ H].
  destruct (value (write_loop bio_write_block device
                     (Z.to_nat (block_count device)) 0 s)) as [err |].
  - destruct H as (Hneg & pre & b & data & Hev & _). rewrite Hev.
    split; [| discriminate].
    intros Hall. apply Forall_app in Hall. destruct Hall as [_ Hlast].
    inversion Hlast as [| ? ? Hret _]. cbn in Hret. lia.
  - split; [reflexivity | intros _; apply H].
Qed.

(** The two ways out of [write_test]. *)
Lemma write_test_unfold (s : state) :
  write_test' s =
  let a := write_phase' s in
  match value a with
  | Some err => (err, final a, events a)
  | None =>
      let r := verify_loop wbits device (Z.to_nat (block_count device)) 0 0
                           (final a) in
      (to_ssize_t wbits (value r), final r, events a ++ events r)
  end.
Proof.
  unfold write_test, write_phase, bind, ret.
  destruct (write_loop bio_write_block device
              (Z.to_nat (block_count device)) 0 s) as [[w s1] t].
  cbn [value final events fst snd].
  destruct w as [err |]; [rewrite app_nil_r; reflexivity |].
  destruct (verify_loop wbits device (Z.to_nat (block_count device)) 0 0 s1)
    as [[n s2] t2].
  cbn [value final events fst snd]. rewrite app_nil_r. reflexivity.
Qed.

(** Once every write has succeeded, [write_test] is the scan of every
    block against its signature, provided the block count fits the
    returned [ssize_t]. *)
Lemma write_test_scan (s : state) :
  0 <= block_count device <= ssize_max wbits ->
  value (write_phase' s) = None ->
  let s1 := final (write_phase' s) in
  write_test' s =
  (count_invalid (value (write_scan s1)), final (write_scan s1),
   events (write_phase' s) ++ events (write_scan s1)).
Proof.
  intros Hfit Hnone s1. rewrite write_test_unfold. cbn zeta.
  rewrite Hnone. fold s1.
  pose proof (ssize_max_lt_pow wbits _ Hfit) as Hpow.
  rewrite verify_loop_scan by lia.
  cbn zeta. cbn [value final events fst snd]. fold (block_indices device).
  rewrite Z.add_0_l.
  rewrite to_ssize_t_id; [reflexivity |].
  pose proof (scan_count_fits wbits state device
                (fun b => [get_signature b]) s1 (proj1 Hfit)) as Hc.
  unfold ssize_t_range, ssize_min. unfold ssize_max in *.
  assert (0 <= 2 ^ (wbits - 1)) by (apply Z.pow_nonneg; lia). lia.
Qed.

(** A block read back whole and filled with its signature validates. *)
Lemma signature_blocks_validate (bnums : list Z) :
  0 <= block_size device <= ssize_max wbits ->
  forall s,
    Forall (holds_signature device) (read_blocks device bnums s) ->
    Forall (fun ok => ok = true)
      (value (validate_blocks wbits device (fun b => [get_signature b])
                              bnums s)).
Proof.
  intros Hbs. pose proof (ssize_max_lt_pow wbits _ Hbs) as Hpow.
  induction bnums as [| b rest IH]; intros s Hall.
  - constructor.
  - rewrite validate_blocks_cons. cbn [value fst].
    rewrite is_valid_block_unfold. cbn [read_blocks] in Hall.
    destruct (read_block device s b 1) as [[n buf] s1].
    inversion Hall as [| ? ? Hhd Hrest]; subst.
    cbn in Hhd. destruct Hhd as [-> ->].
    cbn [value final fst snd]. constructor; [| apply IH; exact Hrest].
    rewrite to_ssize_t_id.
    2:{ unfold ssize_t_range, ssize_min. unfold ssize_max in *.
        assert (0 <= 2 ^ (wbits - 1)) by (apply Z.pow_nonneg; lia). lia. }
    rewrite Z.eqb_refl.
    destruct (Z.ltb_spec (block_size device) 0) as [| _]; [lia |].
    cbn [orb negb]. apply compare_loop_spec; [lia | lia |].
    intros k Hk. rewrite Z.mod_1_r. cbn [nth Z.to_nat].
    unfold memset. rewrite nth_repeat_lt by lia.
    apply get_signature_byte.
Qed.

(** C5: when every write of the first loop succeeds, [write_test]
    returns exactly the number of blocks of [0 .. block_count) that fail
    validation against [[get_signature index]], and 0 when every block
    reads back whole and filled with its signature.  The block count
    fits the [ssize_t] that is returned. *)
Theorem write_test_counts_bad_blocks (s : state) :
  0 <= block_count device <= ssize_max wbits ->
  writes_succeed bio_write_block device s ->
  let s1 := final (write_phase' s) in
  let verdicts := value (write_scan s1) in
  let r := write_test' s in
  value r = count_invalid verdicts /\
  List.length verdicts = Z.to_nat (block_count device) /\
  (0 <= block_size device <= ssize_max wbits ->
   Forall (holds_signature device)
          (read_blocks device (block_indices device) s1) ->
   value r = 0).
Proof.
  intros Hfit Hok s1 verdicts r. subst verdicts r.
  apply writes_succeed_iff in Hok.
  rewrite (write_test_scan s Hfit Hok). fold s1.
  cbn [value fst]. split; [reflexivity |]. split.
  - rewrite validate_blocks_length. unfold block_indices.
    apply zrange_length.
  - intros Hbs Hsig.
    pose proof (signature_blocks_validate (block_indices device) Hbs s1 Hsig)
      as Hall.
    unfold count_invalid.
    induction Hall as [| ok oks Hhd _ IH]; [reflexivity |].
    rewrite Hhd. exact IH.
Qed.

(** The second loop only reads, whatever its counter does. *)
Lemma verify_loop_reads :
  forall (fuel : nat) (bnum acc : Z) (s : state),
    Forall (fun e => is_read e = true)
           (events (verify_loop wbits device fuel bnum acc s)).
Proof.
  induction fuel as [| fuel IH]; intros bnum acc s.
  - constructor.
  - cbn [verify_loop]. unfold bind.
    destruct (is_valid_block_events wbits state device bnum
                [get_signature bnum] 1 s) as [n Hn].
    destruct (is_valid_block wbits device bnum [get_signature bnum] 1 s)
      as [[ok s1] t1].
    cbn [events snd] in Hn. subst t1.
    specialize (IH (bnum + 1)
                   (if negb ok then to_size_t wbits (acc + 1) else acc) s1).
    destruct (verify_loop wbits device fuel (bnum + 1)
                (if negb ok then to_size_t wbits (acc + 1) else acc) s1)
      as [[m s2] t2].
    cbn [events snd app] in *. constructor; [reflexivity | exact IH].
Qed.

(** C6: a failed write ends [write_test] at once with that error as its
    result: only writes came before it and nothing, write or read,
    comes after it.  And any validation read comes after the writes of
    all the blocks [0 .. block_count), in order. *)
Theorem write_test_write_failure_aborts (s : state) :
  let r := write_test' s in
  (forall pre b c data err post,
      events r = pre ++ EvWrite b c data err :: post -> err < 0 ->
      value r = err /\ post = [] /\
      Forall (fun e => is_write e = true) pre) /\
  (forall pre e post,
      events r = pre ++ e :: post -> is_read e = true ->
      map ev_block (filter is_write pre) = block_indices device).
Proof.
  intros r. subst r. rewrite write_test_unfold. cbn zeta.
  pose proof (write_loop_trace (Z.to_nat (block_count device)) 0 s) as H.
  cbn zeta in H. fold (write_phase' s) in H. destruct H as [Hw H].
  destruct (value (write_phase' s)) as [err0 |].
  - destruct H as (Hneg & pre0 & b0 & data0 & Hev & Hpre0).
    cbn [value events fst snd]. split.
    + intros pre b c data err post Heq Herr.
      rewrite Hev in Heq.
      destruct (only_last_outside (fun e => 0 <= ev_ret e) pre0 _ Hpre0
                  _ _ _ Heq) as (-> & Hy & ->).
      { cbn. lia. }
      injection Hy as -> -> -> ->.
      repeat split. rewrite Hev in Hw. apply Forall_app in Hw. apply Hw.
    + intros pre e post Heq Hread. exfalso.
      rewrite Heq in Hw. apply Forall_app in Hw. destruct Hw as [_ Hw].
      inversion Hw as [| ? ? He _]. destruct e; discriminate.
  - destruct H as [Hblocks Hrets].
    set (a := write_phase' s) in *.
    pose proof (verify_loop_reads (Z.to_nat (block_count device)) 0 0
                  (final a)) as Hvr.
    cbn [value events fst snd]. split.
    + intros pre b c data err post Heq Herr. exfalso.
      assert (Hin : In (EvWrite b c data err)
                      (events a ++
                       events (verify_loop wbits device
                                 (Z.to_nat (block_count device)) 0 0
                                 (final a))))
        by (rewrite Heq; apply in_elt).
      apply in_app_or in Hin. destruct Hin as [Hin | Hin].
      * rewrite Forall_forall in Hrets. specialize (Hrets _ Hin).
        cbn in Hrets. lia.
      * rewrite Forall_forall in Hvr. specialize (Hvr _ Hin). discriminate.
    + intros pre e post Heq Hread.
      destruct (after_the_run (fun e => is_write e = true)
                  (fun e => is_read e = true)) with
        (ps := events a)
        (qs := events (verify_loop wbits device
                         (Z.to_nat (block_count device)) 0 0 (final a)))
        (pre := pre) (e := e) (post := post)
        as (mid & -> & Hmid); try assumption.
      { intros [] H1 H2; discriminate. }
      rewrite filter_app, map_app.
      rewrite (forallb_filter_id is_write (events a)).
      2:{ apply forallb_forall. apply Forall_forall. exact Hw. }
      replace (filter is_write mid) with (@nil event).
      * rewrite app_nil_r. exact Hblocks.
      * clear -Hmid. induction Hmid as [| x mid Hx _ IH]; [reflexivity |].
        cbn [filter]. destruct x; try discriminate. exact IH.
Qed.

End WriteTest.

(** ** bio_test_device *)

Section TestDevice.

Variable wbits : Z.
Variable ERR_IO : Z.
Variable state : Type.
Variable bio_erase : state -> Z -> Z -> Z * state.
Variable bio_write_block : state -> list Z -> Z -> Z -> Z * state.
Variable device : bdev state.

Local Abbreviation erase_test' := (erase_test wbits ERR_IO bio_erase device).
Local Abbreviation write_test' := (write_test wbits bio_write_block device).
Local Abbreviation bio_test_device' :=
  (bio_test_device wbits ERR_IO bio_erase bio_write_block device).

(** The three ways out of [bio_test_device]. *)
Lemma bio_test_device_unfold (s : state) :
  bio_test_device' s =
  let e := erase_test' s in
  if value e <? 0 then
    (-1, final e,
     events e ++ [EvPrint "error %ld performing erase test\n" [value e]])
  else if negb (value e =? 0) then
    (-1, final e,
     events e ++
     [EvPrint "discovered %ld error(s) while testing erase.\n" [value e];
      EvPrint "not continuing to test writes.\n" []])
  else
    let w := write_test' (final e) in
    (if negb (value w =? 0) then -1 else 0, final w,
     events e ++
     EvPrint "discovered %ld error(s) while testing erase.\n" [value e]
     :: events w ++
     [EvPrint "Discovered %ld error(s) while testing write.\n" [value w]]).
Proof.
  unfold bio_test_device, bind, printf, emit, ret.
  destruct (erase_test' s) as [[e s1] t1].
  cbn [value final events fst snd].
  destruct (e <? 0); [reflexivity |].
  destruct (negb (e =? 0)); [reflexivity |].
  destruct (write_test' s1) as [[w s2] t2].
  cbn [value final events fst snd].
  destruct (negb (w =? 0)); reflexivity.
Qed.

(** C1: the verdict is PASS (0) exactly when [erase_test] returns zero
    and [write_test], run on the state [erase_test] left, returns zero;
    it is FAIL (-1) exactly when one of the two results is not zero,
    negative results included. *)
Theorem bio_test_device_verdict (s : state) :
  let e := erase_test' s in
  let w := write_test' (final e) in
  let r := bio_test_device' s in
  (value r = 0 <-> value e = 0 /\ value w = 0) /\
  (value r = -1 <-> value e <> 0 \/ value w <> 0).
Proof.
  intros e w r. subst r. rewrite bio_test_device_unfold.
  fold e. cbn zeta. fold w.
  destruct (Z.ltb_spec (value e) 0) as [Hneg | Hnn].
  - cbn [value fst]. split; split; try lia.
  - destruct (Z.eqb_spec (value e) 0) as [He | He]; cbn [negb].
    + destruct (Z.eqb_spec (value w) 0) as [Hw | Hw]; cbn [negb value fst];
        split; split; lia.
    + cbn [value fst]. split; split; lia.
Qed.

(** The validation loop of [erase_test] only reads, whatever its counter
    does. *)
Lemma erase_validate_loop_reads :
  forall (fuel : nat) (bnum acc : Z) (s : state),
    Forall (fun e => is_read e = true)
           (events (erase_validate_loop wbits device fuel bnum acc s)).
Proof.
  induction fuel as [| fuel IH]; intros bnum acc s.
  - constructor.
  - cbn [erase_validate_loop]. unfold bind.
    destruct (is_valid_block_events wbits state device bnum
                [erase_byte device] 1 s) as [n Hn].
    destruct (is_valid_block wbits device bnum [erase_byte device] 1 s)
      as [[ok s1] t1].
    cbn [events snd] in Hn. subst t1.
    specialize (IH (bnum + 1)
                   (if negb ok then to_size_t wbits (acc + 1) else acc) s1).
    destruct (erase_validate_loop wbits device fuel (bnum + 1)
                (if negb ok then to_size_t wbits (acc + 1) else acc) s1)
      as [[m s2] t2].
    cbn [events snd app] in *. constructor; [reflexivity | exact IH].
Qed.

(** [erase_test] prints two banners, erases once and then only reads. *)
Lemma erase_test_events (s : state) :
  exists err reads,
    events (erase_test' s)
    = EvPrint "erasing device...\n" []
      :: EvErase 0 (total_size device) err :: reads /\
    (reads = [] \/
     exists reads',
       reads = EvPrint "validating erase...\n" [] :: reads' /\
       Forall (fun e => is_read e = true) reads').
Proof.
  rewrite erase_test_unfold. cbn zeta.
  exists (fst (bio_erase s 0 (total_size device))).
  destruct (fst (bio_erase s 0 (total_size device)) <? 0).
  { exists []. split; [reflexivity | left; reflexivity]. }
  destruct (negb (fst (bio_erase s 0 (total_size device))
                  =? total_size device)).
  { exists []. split; [reflexivity | left; reflexivity]. }
  eexists. split; [reflexivity |]. right. eexists. split; [reflexivity |].
  apply erase_validate_loop_reads.
Qed.

Lemma erase_test_no_writes (s : state) :
  Forall (fun e => is_write e = false) (events (erase_test' s)).
Proof.
  destruct (erase_test_events s) as (err & reads & -> & Hreads).
  constructor; [reflexivity |]. constructor; [reflexivity |].
  destruct Hreads as [-> | (reads' & -> & Hr)]; [constructor |].
  constructor; [reflexivity |].
  eapply Forall_impl; [| exact Hr].
  intros [] H; try discriminate; reflexivity.
Qed.

(** C7: when [erase_test] returns a positive error count, the verdict is
    FAIL (-1) and the whole run issues no write: [write_test] is never
    called. *)
Theorem erase_failure_skips_write_test (s : state) :
  0 < value (erase_test' s) ->
  let r := bio_test_device' s in
  value r = -1 /\
  Forall (fun e => is_write e = false) (events r) /\
  final r = final (erase_test' s).
Proof.
  intros Hpos r. subst r. rewrite bio_test_device_unfold. cbn zeta.
  destruct (Z.ltb_spec (value (erase_test' s)) 0) as [| _]; [lia |].
  destruct (Z.eqb_spec (value (erase_test' s)) 0) as [| _]; [lia |].
  cbn [negb value final events fst snd].
  split; [reflexivity |]. split; [| reflexivity].
  apply Forall_app. split; [apply erase_test_no_writes |].
  repeat constructor.
Qed.

(** [write_test] prints nothing. *)
Lemma write_test_prints_nothing (s : state) :
  Forall (fun e => is_print e = false) (events (write_test' s)).
Proof.
  rewrite write_test_unfold. cbn zeta.
  pose proof (write_loop_trace state bio_write_block device
                (Z.to_nat (block_count device)) 0 s) as [Hw _].
  fold (write_phase bio_write_block device s) in Hw.
  assert (Hwp : Forall (fun e => is_print e = false)
                  (events (write_phase bio_write_block device s))).
  { eapply Forall_impl; [| exact Hw].
    intros [] H; try discriminate; reflexivity. }
  destruct (value (write_phase bio_write_block device s)); [exact Hwp |].
  cbn [events snd]. apply Forall_app. split; [exact Hwp |].
  eapply Forall_impl; [| apply verify_loop_reads].
  intros [] H; try discriminate; reflexivity.
Qed.

Lemma reported_failure_app (t1 t2 : list event) :
  reported_failure (t1 ++ t2) =
  match reported_failure t1 with
  | Some r => Some r
  | None => reported_failure t2
  end.
Proof.
  induction t1 as [| ev t1 IH]; [reflexivity |].
  cbn [app reported_failure].
  destruct (report_of_event ev); [reflexivity | exact IH].
Qed.

Lemma erase_test_reports_nothing (s : state) :
  reported_failure (events (erase_test' s)) = None.
Proof.
  destruct (erase_test_events s) as (err & reads & -> & Hreads).
  cbn [reported_failure report_of_event].
  destruct Hreads as [-> | (reads' & -> & Hr)]; [reflexivity |].
  cbn [reported_failure report_of_event].
  induction Hr as [| ev t Hev _ IH]; [reflexivity |].
  destruct ev; try discriminate. exact IH.
Qed.

Lemma write_test_reports_nothing (s : state) :
  reported_failure (events (write_test' s)) = None.
Proof.
  pose proof (write_test_prints_nothing s) as H.
  induction H as [| ev t Hev _ IH]; [reflexivity |].
  destruct ev; try discriminate; exact IH.
Qed.

(** C9, as the code has it: [bio_test_device] returns 0 (PASS) or -1
    (FAIL), and 0 exactly when no phase failed.  The returned -1 is the
    same for every failure; the first phase that failed and its result
    are what the console output of the run reports. *)
Theorem bio_test_device_reports_failure (s : state) :
  let e := erase_test' s in
  let w := write_test' (final e) in
  let r := bio_test_device' s in
  (value r = 0 \/ value r = -1) /\
  (value r = 0 <-> first_failure (value e) (value w) = None) /\
  reported_failure (events r) = first_failure (value e) (value w).
Proof.
  intros e w r. subst r. rewrite bio_test_device_unfold.
  fold e. cbn zeta. fold w. unfold first_failure.
  destruct (Z.ltb_spec (value e) 0) as [Hneg | Hnn].
  - destruct (Z.eqb_spec (value e) 0) as [| _]; [lia |].
    cbn [value events fst snd].
    split; [right; reflexivity |]. split; [split; discriminate |].
    rewrite reported_failure_app. subst e.
    rewrite erase_test_reports_nothing. reflexivity.
  - destruct (Z.eqb_spec (value e) 0) as [He | He]; cbn [negb].
    + cbn [value events fst snd].
      rewrite reported_failure_app. subst e.
      rewrite erase_test_reports_nothing.
      cbn [reported_failure]. rewrite He.
      change (report_of_event
                (EvPrint "discovered %ld error(s) while testing erase.\n"
                         [0])) with (@None (phase * Z)).
      cbv iota. rewrite reported_failure_app. subst w.
      rewrite write_test_reports_nothing.
      destruct (Z.eqb_spec
                  (value (write_test' (final (erase_test' s)))) 0)
        as [Hw | Hw]; cbn [negb].
      * split; [left; reflexivity |]. split; [split; reflexivity |].
        rewrite Hw. reflexivity.
      * split; [right; reflexivity |]. split; [split; discriminate |].
        cbn [reported_failure]. unfold report_of_event.
        cbn [String.eqb Ascii.eqb Bool.eqb].
        destruct (Z.eqb_spec
                    (value (write_test' (final (erase_test' s)))) 0);
          [contradiction | reflexivity].
    + cbn [value events fst snd].
      split; [right; reflexivity |]. split; [split; discriminate |].
      rewrite reported_failure_app. subst e.
      rewrite erase_test_reports_nothing.
      cbn [reported_failure]. unfold report_of_event.
      cbn [String.eqb Ascii.eqb Bool.eqb].
      destruct (Z.eqb_spec (value (erase_test' s)) 0);
        [contradiction | reflexivity].
Qed.

(** C10: an error count is never negative and never above
    [block_count]: the one [erase_test] returns on a well-formed device
    once the erase reported the full [total_size], and the one
    [write_test] returns once every write succeeded, the block count
    fitting the [ssize_t] that is returned. *)
Theorem error_counts_within_block_count (s : state) :
  (bdev_wf device ->
   ssize_t_range wbits (fst (bio_erase s 0 (total_size device))) ->
   fst (bio_erase s 0 (total_size device)) = total_size device ->
   0 <= value (erase_test' s) <= block_count device) /\
  (0 <= block_count device <= ssize_max wbits ->
   writes_succeed bio_write_block device s ->
   0 <= value (write_test' s) <= block_count device).
Proof.
  split.
  - intros Hwf Hrange Hall.
    destruct (erased_block_count_fits wbits state device _ Hwf Hrange Hall)
      as [Hpos Hfit].
    rewrite (erase_test_scan wbits ERR_IO state bio_erase device s
               Hpos Hall Hfit).
    cbn [value fst]. apply scan_count_fits. apply Hfit.
  - intros Hfit Hok. apply writes_succeed_iff in Hok.
    rewrite (write_test_scan wbits state bio_write_block device s Hfit Hok).
    cbn [value fst]. apply scan_count_fits. apply Hfit.
Qed.

End TestDevice.

(** ** The simulated device: worked runs *)

Module SimRuns.

Import Sim.

Example signatures_of_first_blocks :
  map get_signature [0; 1; 2; 3] = [0; 1; 2; 3].
Proof. reflexivity. Qed.

(** A healthy device passes: both phases count no error. *)
Example healthy_device_passes :
  value (run_erase_test healthy) = 0 /\
  value (run_write_test healthy (final (run_erase_test healthy))) = 0 /\
  value (run_test healthy) = 0.
Proof. vm_compute. repeat split. Qed.

(** Block 2 reads back 0x01 after the erase: one error, no write issued,
    the verdict is FAIL. *)
Example stuck_block_fails_erase :
  value (run_erase_test stuck_block) = 1 /\
  filter is_write (events (run_test stuck_block)) = [] /\
  value (run_test stuck_block) = -1.
Proof. vm_compute. repeat split. Qed.

(** A half-erased device: [erase_test] returns [ERR_IO], no count. *)
Example short_erase_is_io_error :
  value (run_erase_test short_erase) = ERR_IO /\
  value (run_test short_erase) = -1.
Proof. vm_compute. repeat split. Qed.

Lemma ssize_range_32 (z : Z) :
  -2147483648 <= z <= 2147483647 -> ssize_t_range wbits z.
Proof.
  unfold ssize_t_range, ssize_min, ssize_max, wbits. cbn. intros H; exact H.
Qed.

Lemma device_wf (f : faults) : bdev_wf (device f).
Proof. unfold bdev_wf. cbn. lia. Qed.

Lemma block_count_fits (f : faults) :
  0 <= block_count (device f) <= ssize_max wbits.
Proof. unfold ssize_max, wbits. cbn. lia. Qed.

Lemma block_size_fits (f : faults) :
  0 <= block_size (device f) <= ssize_max wbits.
Proof. unfold ssize_max, wbits. cbn. lia. Qed.

End SimRuns.

(** The half-erased device: the result is [ERR_IO] and no block is read. *)
Lemma erase_test_io_error_witness :
  let r := Sim.run_erase_test Sim.short_erase in
  value r < 0 /\ value r = Sim.ERR_IO /\ filter is_read (events r) = [].
Proof.
  destruct (erase_test_io_error Sim.wbits Sim.ERR_IO Sim.ram
              (Sim.erase Sim.short_erase) (Sim.device Sim.short_erase)
              Sim.fresh) as (H1 & H2 & _ & H4 & _).
  - unfold Sim.ERR_IO. lia.
  - right. cbn. lia.
  - split; [exact H1 |]. split; [exact H2 | exact H4].
Defined.

(** The device whose block 2 is stuck at 0x01 counts one invalid block;
    the healthy device counts none. *)
Lemma erase_test_counts_invalid_blocks_witness :
  value (Sim.run_erase_test Sim.stuck_block) = 1 /\
  value (Sim.run_erase_test Sim.healthy) = 0 /\
  map ev_block (filter is_read (events (Sim.run_erase_test Sim.stuck_block)))
  = [0; 1; 2; 3].
Proof.
  destruct (erase_test_counts_invalid_blocks Sim.wbits Sim.ERR_IO Sim.ram
              (Sim.erase Sim.stuck_block) (Sim.device Sim.stuck_block)
              Sim.fresh) as (H1 & _ & _ & H4).
  - apply SimRuns.device_wf.
  - apply SimRuns.ssize_range_32. cbn. lia.
  - reflexivity.
  - destruct (erase_test_counts_invalid_blocks Sim.wbits Sim.ERR_IO Sim.ram
                (Sim.erase Sim.healthy) (Sim.device Sim.healthy)
                Sim.fresh) as (_ & H2 & _ & _).
    + apply SimRuns.device_wf.
    + apply SimRuns.ssize_range_32. cbn. lia.
    + reflexivity.
    + split; [exact H1 |]. split; [| exact H4].
      apply H2. vm_compute. repeat constructor.
Defined.

(** Block 0 of the erased healthy device matches the pattern [[0]]. *)
Lemma is_valid_block_spec_witness :
  matches_pattern 4 [0; 0; 0; 0] [0].
Proof.
  destruct (is_valid_block_spec Sim.wbits Sim.ram (Sim.device Sim.healthy)
              0 [0] Sim.erased) as (H1 & _ & _).
  - intros H. discriminate H.
  - unfold Sim.wbits. cbn. lia.
  - apply SimRuns.ssize_range_32. cbn. lia.
  - apply (proj1 (H1 eq_refl)). vm_compute. reflexivity.
Defined.

(** The device that loses the writes of blocks 1 and 2 counts two bad
    blocks; the healthy device counts none. *)
Lemma write_test_counts_bad_blocks_witness :
  value (Sim.run_write_test Sim.lost_writes Sim.erased) = 2 /\
  value (Sim.run_write_test Sim.healthy Sim.erased) = 0.
Proof.
  destruct (write_test_counts_bad_blocks Sim.wbits Sim.ram
              (Sim.write Sim.lost_writes) (Sim.device Sim.lost_writes)
              Sim.erased) as (H1 & _ & _).
  - apply SimRuns.block_count_fits.
  - apply writes_succeed_iff. vm_compute. reflexivity.
  - destruct (write_test_counts_bad_blocks Sim.wbits Sim.ram
                (Sim.write Sim.healthy) (Sim.device Sim.healthy)
                Sim.erased) as (_ & _ & H3).
    + apply SimRuns.block_count_fits.
    + apply writes_succeed_iff. vm_compute. reflexivity.
    + split; [exact H1 |].
      apply H3; [apply SimRuns.block_size_fits |].
      vm_compute. repeat constructor.
Defined.

(** The write of block 2 fails with -5: the run is two good writes and
    the failed one, and returns -5.  On the healthy device the read of
    block 1 comes after the four writes. *)
Lemma write_test_write_failure_aborts_witness :
  value (Sim.run_write_test Sim.write_error Sim.erased) = -5 /\
  map ev_block
      (filter is_write
         [EvWrite 0 1 [0; 0; 0; 0] 4; EvWrite 1 1 [1; 1; 1; 1] 4;
          EvWrite 2 1 [2; 2; 2; 2] 4; EvWrite 3 1 [3; 3; 3; 3] 4;
          EvRead 0 1 4])
  = [0; 1; 2; 3].
Proof.
  split.
  - apply (proj1 (write_test_write_failure_aborts Sim.wbits Sim.ram
                    (Sim.write Sim.write_error) (Sim.device Sim.write_error)
                    Sim.erased)
             [EvWrite 0 1 [0; 0; 0; 0] 4; EvWrite 1 1 [1; 1; 1; 1] 4]
             2 1 [2; 2; 2; 2] (-5) []).
    + vm_compute. reflexivity.
    + lia.
  - apply (proj2 (write_test_write_failure_aborts Sim.wbits Sim.ram
                    (Sim.write Sim.healthy) (Sim.device Sim.healthy)
                    Sim.erased)
             [EvWrite 0 1 [0; 0; 0; 0] 4; EvWrite 1 1 [1; 1; 1; 1] 4;
              EvWrite 2 1 [2; 2; 2; 2] 4; EvWrite 3 1 [3; 3; 3; 3] 4;
              EvRead 0 1 4]
             (EvRead 1 1 4) [EvRead 2 1 4; EvRead 3 1 4]).
    + vm_compute. reflexivity.
    + reflexivity.
Defined.

(** The stuck block makes [erase_test] return 1: the verdict is -1 and no
    write is issued. *)
Lemma erase_failure_skips_write_test_witness :
  0 < value (Sim.run_erase_test Sim.stuck_block) /\
  value (Sim.run_test Sim.stuck_block) = -1 /\
  Forall (fun e => is_write e = false) (events (Sim.run_test Sim.stuck_block)).
Proof.
  assert (H : 0 < value (Sim.run_erase_test Sim.stuck_block))
    by (vm_compute; reflexivity).
  split; [exact H |].
  destruct (erase_failure_skips_write_test Sim.wbits Sim.ERR_IO Sim.ram
              (Sim.erase Sim.stuck_block) (Sim.write Sim.stuck_block)
              (Sim.device Sim.stuck_block) Sim.fresh H) as (H1 & H2 & _).
  split; [exact H1 | exact H2].
Defined.

(** The counts of the stuck-block erase test and of the lost-writes write
    test lie within the four blocks of the device. *)
Lemma error_counts_within_block_count_witness :
  0 <= value (Sim.run_erase_test Sim.stuck_block) <= 4 /\
  0 <= value (Sim.run_write_test Sim.lost_writes Sim.erased) <= 4.
Proof.
  split.
  - apply (proj1 (error_counts_within_block_count Sim.wbits Sim.ERR_IO
                    Sim.ram (Sim.erase Sim.stuck_block)
                    (Sim.write Sim.stuck_block) (Sim.device Sim.stuck_block)
                    Sim.fresh)).
    + apply SimRuns.device_wf.
    + apply SimRuns.ssize_range_32. cbn. lia.
    + reflexivity.
  - apply (proj2 (error_counts_within_block_count Sim.wbits Sim.ERR_IO
                    Sim.ram (Sim.erase Sim.lost_writes)
                    (Sim.write Sim.lost_writes) (Sim.device Sim.lost_writes)
                    Sim.erased)).
    + apply SimRuns.block_count_fits.
    + apply writes_succeed_iff. vm_compute. reflexivity.
Defined.

(** C9, as stated, fails: the value [bio_test_device] returns does not
    determine the phase that failed nor its error count.  The device
    whose block 2 is stuck fails the erase phase with one error, the
    device that loses two writes fails the write phase with two, and both
    runs return -1. *)
Lemma fail_value_carries_no_phase_or_count :
  ~ exists decode : Z -> option (phase * Z),
      forall f : Sim.faults,
        decode (value (Sim.run_test f)) =
        first_failure
          (value (Sim.run_erase_test f))
          (value (Sim.run_write_test f (final (Sim.run_erase_test f)))).
Proof.
  intros [decode H].
  pose proof (H Sim.stuck_block) as H1.
  pose proof (H Sim.lost_writes) as H2.
  vm_compute in H1, H2. rewrite H1 in H2. discriminate H2.
Qed.

(** ** More on the signature *)

Lemma word_byte_small (w k : Z) :
  0 <= w < 256 -> 1 <= k -> word_byte w k = 0.
Proof.
  intros Hw Hk. unfold word_byte.
  rewrite Z.shiftr_div_pow2 by lia.
  rewrite Z.div_small; [reflexivity |].
  assert (H : 2 ^ 8 <= 2 ^ (8 * k)) by (apply Z.pow_le_mono_r; lia).
  change (2 ^ 8) with 256 in H. lia.
Qed.

Lemma to_uint8_small (w : Z) : 0 <= w < 256 -> to_uint8 w = w.
Proof.
  intros Hw. unfold to_uint8. change 255 with (Z.ones 8).
  rewrite Z.land_ones by lia. apply Z.mod_small.
  change (2 ^ 8) with 256. lia.
Qed.

(** X1: a signature is a byte, and the signature of a block index below
    256 is the index itself: the first 256 blocks of a device have
    pairwise distinct signatures. *)
Theorem get_signature_small_indices :
  (forall w, 0 <= get_signature w < 256) /\
  (forall w, 0 <= w < 256 -> get_signature w = w) /\
  (forall a b, 0 <= a < 256 -> 0 <= b < 256 ->
               get_signature a = get_signature b -> a = b).
Proof.
  assert (Hid : forall w, 0 <= w < 256 -> get_signature w = w).
  { intros w Hw. unfold get_signature.
    rewrite (word_byte_small w 1), (word_byte_small w 2),
      (word_byte_small w 3) by lia.
    rewrite !Z.lxor_0_r.
    unfold word_byte. change (8 * 0) with 0. rewrite Z.shiftr_0_r.
    fold (to_uint8 w). rewrite to_uint8_idem. apply to_uint8_small. exact Hw. }
  split; [intros w; apply to_uint8_range |].
  split; [exact Hid |].
  intros a b Ha Hb Heq. rewrite (Hid a Ha), (Hid b Hb) in Heq. exact Heq.
Qed.

Lemma get_signature_small_indices_witness :
  get_signature 200 = 200 /\ (get_signature 7 = get_signature 7 -> 7 = 7).
Proof.
  destruct get_signature_small_indices as (_ & Hid & Hinj).
  split.
  - apply Hid. lia.
  - apply Hinj; lia.
Defined.

Lemma word_byte_lxor (a b k : Z) :
  word_byte (Z.lxor a b) k = Z.lxor (word_byte a k) (word_byte b k).
Proof.
  unfold word_byte. rewrite Z.shiftr_lxor.
  apply Z.bits_inj'. intros n Hn.
  rewrite Z.land_spec, !Z.lxor_spec, !Z.land_spec.
  destruct (Z.testbit 255 n);
    destruct (Z.testbit (Z.shiftr a (8 * k)) n);
    destruct (Z.testbit (Z.shiftr b (8 * k)) n); reflexivity.
Qed.

Lemma to_uint8_lxor (a b : Z) :
  to_uint8 (Z.lxor a b) = Z.lxor (to_uint8 a) (to_uint8 b).
Proof.
  unfold to_uint8. apply Z.bits_inj'. intros n Hn.
  rewrite Z.land_spec, !Z.lxor_spec, !Z.land_spec.
  destruct (Z.testbit 255 n); destruct (Z.testbit a n);
    destruct (Z.testbit b n); reflexivity.
Qed.

(** X2: the signature is linear for XOR: the signature of [a xor b] is
    the XOR of the signatures.  Two indices collide exactly when the
    signature of their XOR is zero. *)
Theorem get_signature_lxor (a b : Z) :
  get_signature (Z.lxor a b) = Z.lxor (get_signature a) (get_signature b) /\
  (get_signature a = get_signature b <-> get_signature (Z.lxor a b) = 0).
Proof.
  assert (H : get_signature (Z.lxor a b)
              = Z.lxor (get_signature a) (get_signature b)).
  { unfold get_signature. rewrite !word_byte_lxor, <- to_uint8_lxor.
    f_equal.
    set (a0 := word_byte a 0). set (a1 := word_byte a 1).
    set (a2 := word_byte a 2). set (a3 := word_byte a 3).
    set (b0 := word_byte b 0). set (b1 := word_byte b 1).
    set (b2 := word_byte b 2). set (b3 := word_byte b 3).
    apply Z.bits_inj'. intros n Hn. rewrite !Z.lxor_spec.
    destruct (Z.testbit a0 n), (Z.testbit a1 n), (Z.testbit a2 n),
      (Z.testbit a3 n), (Z.testbit b0 n), (Z.testbit b1 n),
      (Z.testbit b2 n), (Z.testbit b3 n); reflexivity. }
  split; [exact H |]. rewrite H. split.
  - intros ->. apply Z.lxor_nilpotent.
  - intros Hz. apply Z.lxor_eq. exact Hz.
Qed.

Lemma xor_bytes_permutation (l l' : list Z) :
  Permutation.Permutation l l' -> xor_bytes l = xor_bytes l'.
Proof.
  induction 1 as [| x l l' _ IH | x y l | l l' l'' _ IH1 _ IH2];
    unfold xor_bytes in *; cbn [fold_right].
  - reflexivity.
  - rewrite IH. reflexivity.
  - rewrite <- !Z.lxor_assoc. f_equal. apply Z.lxor_comm.
  - rewrite IH1. exact IH2.
Qed.

(** X3: the signature does not depend on the order in which the four
    bytes of the index lie in memory: XOR-ing them in any order gives the
    same byte. *)
Theorem get_signature_byte_order (word : Z) (order : list Z) :
  Permutation.Permutation order [0; 1; 2; 3] ->
  to_uint8 (xor_bytes (map (word_byte word) order)) = get_signature word.
Proof.
  intros Hp.
  rewrite (xor_bytes_permutation _ _
             (Permutation.Permutation_map (word_byte word) Hp)).
  unfold get_signature, xor_bytes. cbn [map fold_right].
  rewrite Z.lxor_0_r. f_equal.
  rewrite !Z.lxor_assoc. reflexivity.
Qed.

Lemma get_signature_byte_order_witness :
  to_uint8 (xor_bytes (map (word_byte 305419896) [3; 2; 1; 0]))
  = get_signature 305419896.
Proof.
  apply get_signature_byte_order.
  apply Permutation.Permutation_sym.
  change [3; 2; 1; 0] with (rev [0; 1; 2; 3]).
  apply Permutation.Permutation_rev.
Defined.

(** ** More on validation *)

Section ExactReads.

Variable wbits : Z.
Variable state : Type.
Variable device : bdev state.

(** What the cast [(ssize_t)block_size] yields. *)
Lemma to_ssize_t_size (size : Z) :
  1 <= wbits -> 0 <= size < 2 ^ wbits ->
  (size <= ssize_max wbits /\ to_ssize_t wbits size = size) \/
  (ssize_max wbits < size /\ to_ssize_t wbits size < 0).
Proof.
  intros Hw Hs. unfold ssize_max, to_ssize_t.
  rewrite (pow_wbits_double wbits Hw) in *.
  assert (Hp : 0 < 2 ^ (wbits - 1)) by (apply Z.pow_pos_nonneg; lia).
  destruct (Z_lt_le_dec size (2 ^ (wbits - 1))) as [Hlt | Hge].
  - left. split; [lia |]. rewrite Z.mod_small; lia.
  - right. split; [lia |].
    replace (size + 2 ^ (wbits - 1))
      with (size - 2 ^ (wbits - 1) + 1 * (2 * 2 ^ (wbits - 1))) by lia.
    rewrite Z.mod_add by lia. rewrite Z.mod_small; lia.
Qed.

(** X4: [is_valid_block] answers true only when the read returned
    exactly [block_size] bytes: a negative status, a short read and a
    read that reports more than a block are all failures, and so is
    every read of a device whose block size does not fit an [ssize_t]. *)
Theorem is_valid_block_true_exact (block_num : Z) (pattern : list Z)
        (pattern_length : Z) (s : state) :
  1 <= wbits ->
  0 <= block_size device < 2 ^ wbits ->
  value (is_valid_block wbits device block_num pattern pattern_length s)
  = true ->
  fst (fst (read_block device s block_num 1)) = block_size device /\
  block_size device <= ssize_max wbits.
Proof.
  intros Hw Hs. rewrite is_valid_block_unfold.
  destruct (read_block device s block_num 1) as [[n buf] s'].
  cbn [value fst].
  destruct (Z.ltb_spec n 0) as [| Hn]; [discriminate |].
  destruct (Z.eqb_spec n (to_ssize_t wbits (block_size device)))
    as [Heq | Hne]; [| discriminate].
  intros _.
  destruct (to_ssize_t_size (block_size device) Hw Hs) as [[Hle Hid] | [_ Hneg]].
  - rewrite Hid in Heq. split; assumption.
  - lia.
Qed.

(** Blocks that validate against a one-byte pattern were read back whole
    and filled with that byte. *)
Lemma valid_blocks_read_back (byte_of : Z -> Z) :
  1 <= wbits ->
  0 <= block_size device < 2 ^ wbits ->
  forall (bnums : list Z) (s : state),
    Forall (fun ok => ok = true)
           (value (validate_blocks wbits device (fun b => [byte_of b])
                                   bnums s)) ->
    Forall (reads_back device byte_of) (read_blocks device bnums s).
Proof.
  intros Hw Hs. induction bnums as [| b rest IH]; intros s Hall.
  - constructor.
  - rewrite validate_blocks_cons in Hall. cbn [value fst] in Hall.
    inversion Hall as [| ? ? Hhd Hrest]; subst. clear Hall.
    pose proof (is_valid_block_true_exact b [byte_of b] 1 s Hw Hs Hhd)
      as [Hn Hfit].
    rewrite is_valid_block_unfold in Hhd, Hrest.
    cbn [read_blocks].
    destruct (read_block device s b 1) as [[n buf] s1].
    cbn [value final fst snd] in *. subst n.
    constructor; [| apply IH; exact Hrest].
    split; [reflexivity |].
    destruct ((block_size device <? 0)
              || negb (block_size device
                       =? to_ssize_t wbits (block_size device)));
      [discriminate |].
    intros k Hk.
    pose proof (proj1 (compare_loop_spec wbits buf [byte_of b] 1
                         (Z.to_nat (block_size device)) 0
                         ltac:(lia) ltac:(lia)) Hhd k ltac:(lia)) as Hk'.
    rewrite Z.mod_1_r in Hk'. exact Hk'.
Qed.

(** Blocks read back whole and filled with their byte validate. *)
Lemma filled_blocks_validate (byte_of : Z -> Z) :
  0 <= block_size device <= ssize_max wbits ->
  forall (bnums : list Z) (s : state),
    Forall (fun r : Z * Z * list Z =>
              snd (fst r) = block_size device /\
              snd r = repeat (byte_of (fst (fst r)))
                             (Z.to_nat (block_size device)))
           (read_blocks device bnums s) ->
    Forall (fun ok => ok = true)
           (value (validate_blocks wbits device (fun b => [byte_of b])
                                   bnums s)).
Proof.
  intros Hbs. pose proof (ssize_max_lt_pow wbits _ Hbs) as Hpow.
  induction bnums as [| b rest IH]; intros s Hall.
  - constructor.
  - rewrite validate_blocks_cons. cbn [value fst].
    rewrite is_valid_block_unfold. cbn [read_blocks] in Hall.
    destruct (read_block device s b 1) as [[n buf] s1].
    inversion Hall as [| ? ? Hhd Hrest]; subst.
    cbn [fst snd] in Hhd. destruct Hhd as [-> ->].
    cbn [value final fst snd]. constructor; [| apply IH; exact Hrest].
    rewrite to_ssize_t_id.
    2:{ unfold ssize_t_range, ssize_min. unfold ssize_max in *.
        assert (0 <= 2 ^ (wbits - 1)) by (apply Z.pow_nonneg; lia). lia. }
    rewrite Z.eqb_refl.
    destruct (Z.ltb_spec (block_size device) 0) as [| _]; [lia |].
    cbn [orb negb]. apply compare_loop_spec; [lia | lia |].
    intros k Hk. rewrite Z.mod_1_r. cbn [nth Z.to_nat].
    apply nth_repeat_lt. lia.
Qed.

Lemma count_invalid_zero (oks : list bool) :
  count_invalid oks = 0 -> Forall (fun ok => ok = true) oks.
Proof.
  induction oks as [| ok oks IH]; intros H; [constructor |].
  rewrite count_invalid_cons in H.
  pose proof (count_invalid_bounds oks) as Hb.
  destruct ok; cbn [negb] in H; [| lia].
  constructor; [reflexivity | apply IH; lia].
Qed.

Lemma all_valid_count_zero (oks : list bool) :
  Forall (fun ok => ok = true) oks -> count_invalid oks = 0.
Proof.
  induction 1 as [| ok oks Hok _ IH]; [reflexivity |].
  rewrite count_invalid_cons, Hok, IH. reflexivity.
Qed.

(** The blocks a validation loop reads, whatever its counter does. *)
Lemma erase_validate_loop_blocks :
  forall (fuel : nat) (bnum acc : Z) (s : state),
    map ev_block (events (erase_validate_loop wbits device fuel bnum acc s))
    = zrange bnum fuel.
Proof.
  induction fuel as [| fuel IH]; intros bnum acc s.
  - reflexivity.
  - cbn [erase_validate_loop]. unfold bind.
    destruct (is_valid_block_events wbits state device bnum
                [erase_byte device] 1 s) as [n Hn].
    destruct (is_valid_block wbits device bnum [erase_byte device] 1 s)
      as [[ok s1] t1].
    cbn [events snd] in Hn. subst t1.
    specialize (IH (bnum + 1)
                   (if negb ok then to_size_t wbits (acc + 1) else acc) s1).
    destruct (erase_validate_loop wbits device fuel (bnum + 1)
                (if negb ok then to_size_t wbits (acc + 1) else acc) s1)
      as [[m s2] t2].
    cbn [events snd app map ev_block zrange] in *. f_equal. exact IH.
Qed.

Lemma verify_loop_blocks :
  forall (fuel : nat) (bnum acc : Z) (s : state),
    map ev_block (events (verify_loop wbits device fuel bnum acc s))
    = zrange bnum fuel.
Proof.
  induction fuel as [| fuel IH]; intros bnum acc s.
  - reflexivity.
  - cbn [verify_loop]. unfold bind.
    destruct (is_valid_block_events wbits state device bnum
                [get_signature bnum] 1 s) as [n Hn].
    destruct (is_valid_block wbits device bnum [get_signature bnum] 1 s)
      as [[ok s1] t1].
    cbn [events snd] in Hn. subst t1.
    specialize (IH (bnum + 1)
                   (if negb ok then to_size_t wbits (acc + 1) else acc) s1).
    destruct (verify_loop wbits device fuel (bnum + 1)
                (if negb ok then to_size_t wbits (acc + 1) else acc) s1)
      as [[m s2] t2].
    cbn [events snd app map ev_block zrange] in *. f_equal. exact IH.
Qed.

End ExactReads.

(** ** What a result of zero certifies *)

Section ZeroResults.

Variable wbits : Z.
Variable ERR_IO : Z.
Variable state : Type.
Variable bio_erase : state -> Z -> Z -> Z * state.
Variable bio_write_block : state -> list Z -> Z -> Z -> Z * state.
Variable device : bdev state.

Local Abbreviation erase_test' := (erase_test wbits ERR_IO bio_erase device).
Local Abbreviation write_test' := (write_test wbits bio_write_block device).
Local Abbreviation write_phase' := (write_phase bio_write_block device).
Local Abbreviation bio_test_device' :=
  (bio_test_device wbits ERR_IO bio_erase bio_write_block device).

(** A result of [erase_test] that is not negative comes out of the
    validation loop. *)
Lemma erase_test_nonneg_erased (s : state) :
  ERR_IO < 0 ->
  0 <= value (erase_test' s) ->
  0 <= fst (bio_erase s 0 (total_size device)) /\
  fst (bio_erase s 0 (total_size device)) = total_size device.
Proof.
  intros Hio. rewrite erase_test_unfold. cbn zeta.
  destruct (Z.ltb_spec (fst (bio_erase s 0 (total_size device))) 0)
    as [Hneg | Hnn]; [cbn; lia |].
  destruct (Z.eqb_spec (fst (bio_erase s 0 (total_size device)))
              (total_size device)) as [Heq | Hne]; [| cbn; lia].
  intros _. split; assumption.
Qed.

Lemma erase_test_zero_core (s : state) :
  ERR_IO < 0 ->
  bdev_wf device ->
  block_size device < 2 ^ wbits ->
  ssize_t_range wbits (fst (bio_erase s 0 (total_size device))) ->
  value (erase_test' s) = 0 ->
  fst (bio_erase s 0 (total_size device)) = total_size device /\
  Forall (reads_back device (fun _ => erase_byte device))
         (read_blocks device (block_indices device)
                      (snd (bio_erase s 0 (total_size device)))) /\
  0 <= block_count device <= ssize_max wbits.
Proof.
  intros Hio Hwf Hsize Hrange Hzero.
  destruct (erase_test_nonneg_erased s Hio ltac:(lia)) as [Hpos Hall].
  destruct (erased_block_count_fits wbits state device _ Hwf Hrange Hall)
    as [_ Hfit].
  split; [exact Hall |]. split; [| exact Hfit].
  rewrite (erase_test_scan wbits ERR_IO state bio_erase device s
             Hpos Hall Hfit) in Hzero.
  cbn [value fst] in Hzero.
  apply (valid_blocks_read_back wbits).
  - exact (ssize_bounds_wbits wbits _ Hrange).
  - destruct Hwf as (Hbs & _). lia.
  - apply count_invalid_zero. exact Hzero.
Qed.

Lemma write_test_zero_core (s : state) :
  0 <= block_count device <= ssize_max wbits ->
  0 <= block_size device < 2 ^ wbits ->
  value (write_test' s) = 0 ->
  writes_succeed bio_write_block device s /\
  Forall (reads_back device get_signature)
         (read_blocks device (block_indices device) (final (write_phase' s))).
Proof.
  intros Hfit Hsize Hzero.
  assert (Hnone : value (write_phase' s) = None).
  { rewrite write_test_unfold in Hzero. cbn zeta in Hzero.
    pose proof (write_loop_trace state bio_write_block device
                  (Z.to_nat (block_count device)) 0 s) as [_ H].
    fold (write_phase' s) in H.
    destruct (value (write_phase' s)) as [err |]; [| reflexivity].
    cbn [value fst] in Hzero. destruct H as [Hneg _]. lia. }
  split; [apply writes_succeed_iff; exact Hnone |].
  rewrite (write_test_scan wbits state bio_write_block device s Hfit Hnone)
    in Hzero.
  cbn [value fst] in Hzero.
  apply (valid_blocks_read_back wbits).
  - destruct (Z_lt_le_dec (wbits - 1) 0) as [Hneg | Hpos]; [| lia].
    unfold ssize_max in Hfit. rewrite Z.pow_neg_r in Hfit by lia. lia.
  - exact Hsize.
  - apply count_invalid_zero. exact Hzero.
Qed.

(** X5: when [erase_test] returns 0 on a well-formed device, the erase
    call reported the whole [total_size] and every block of
    [0 .. block_count) was then read back whole with every byte equal to
    [erase_byte]. *)
Theorem erase_test_zero_reads_erase_byte (s : state) :
  ERR_IO < 0 ->
  bdev_wf device ->
  block_size device < 2 ^ wbits ->
  ssize_t_range wbits (fst (bio_erase s 0 (total_size device))) ->
  value (erase_test' s) = 0 ->
  fst (bio_erase s 0 (total_size device)) = total_size device /\
  Forall (reads_back device (fun _ => erase_byte device))
         (read_blocks device (block_indices device)
                      (snd (bio_erase s 0 (total_size device)))).
Proof.
  intros Hio Hwf Hsize Hrange Hzero.
  destruct (erase_test_zero_core s Hio Hwf Hsize Hrange Hzero)
    as (H1 & H2 & _).
  split; assumption.
Qed.

(** X6: when [write_test] returns 0, every write of its first loop
    succeeded and every block of [0 .. block_count) was then read back
    whole with every byte equal to the signature of its index. *)
Theorem write_test_zero_reads_signatures (s : state) :
  0 <= block_count device <= ssize_max wbits ->
  0 <= block_size device < 2 ^ wbits ->
  value (write_test' s) = 0 ->
  writes_succeed bio_write_block device s /\
  Forall (reads_back device get_signature)
         (read_blocks device (block_indices device) (final (write_phase' s))).
Proof. exact (write_test_zero_core s). Qed.

(** X7: a PASS verdict of [bio_test_device] on a well-formed device
    certifies the whole run: the erase reported [total_size], every block
    read back as [erase_byte], every write succeeded, and every block
    then read back as its signature. *)
Theorem bio_test_device_pass_certifies (s : state) :
  ERR_IO < 0 ->
  bdev_wf device ->
  block_size device < 2 ^ wbits ->
  ssize_t_range wbits (fst (bio_erase s 0 (total_size device))) ->
  value (bio_test_device' s) = 0 ->
  let s1 := snd (bio_erase s 0 (total_size device)) in
  let s2 := final (erase_test' s) in
  fst (bio_erase s 0 (total_size device)) = total_size device /\
  Forall (reads_back device (fun _ => erase_byte device))
         (read_blocks device (block_indices device) s1) /\
  writes_succeed bio_write_block device s2 /\
  Forall (reads_back device get_signature)
         (read_blocks device (block_indices device)
                      (final (write_phase' s2))).
Proof.
  intros Hio Hwf Hsize Hrange Hpass s1 s2.
  rewrite bio_test_device_unfold in Hpass. cbn zeta in Hpass.
  destruct (Z.ltb_spec (value (erase_test' s)) 0) as [| Hnn];
    [discriminate Hpass |].
  destruct (Z.eqb_spec (value (erase_test' s)) 0) as [He | He];
    [| discriminate Hpass].
  cbn [negb value fst] in Hpass.
  destruct (Z.eqb_spec (value (write_test' (final (erase_test' s)))) 0)
    as [Hw | Hw]; [| discriminate Hpass].
  destruct (erase_test_zero_core s Hio Hwf Hsize Hrange He)
    as (H1 & H2 & Hfit).
  destruct (write_test_zero_core s2 Hfit) as [H3 H4].
  - destruct Hwf as (Hbs & _). lia.
  - exact Hw.
  - repeat split; assumption.
Qed.

End ZeroResults.

(** ** The I/O a run issues *)

Section Schedule.

Variable wbits : Z.
Variable ERR_IO : Z.
Variable state : Type.
Variable bio_erase : state -> Z -> Z -> Z * state.
Variable bio_write_block : state -> list Z -> Z -> Z -> Z * state.
Variable device : bdev state.

Local Abbreviation erase_test' := (erase_test wbits ERR_IO bio_erase device).
Local Abbreviation write_test' := (write_test wbits bio_write_block device).
Local Abbreviation write_phase' := (write_phase bio_write_block device).
Local Abbreviation bio_test_device' :=
  (bio_test_device wbits ERR_IO bio_erase bio_write_block device).

(** What the first loop of [write_test] hands to [bio_write_block]. *)
Lemma write_loop_data :
  forall (fuel : nat) (bnum : Z) (s : state),
    Forall (fun e =>
              exists b ret,
                e = EvWrite b 1
                      (memset (get_signature b) (block_size device)) ret /\
                bnum <= b < bnum + Z.of_nat fuel)
           (events (write_loop bio_write_block device fuel bnum s)).
Proof.
  induction fuel as [| fuel IH]; intros bnum s.
  - constructor.
  - cbn [write_loop]. unfold bind, do_bio_write_block.
    destruct (bio_write_block s
                (memset (get_signature bnum) (block_size device)) bnum 1)
      as [err s1].
    assert (Hhd : exists b ret,
               EvWrite bnum 1
                 (memset (get_signature bnum) (block_size device)) err
               = EvWrite b 1
                   (memset (get_signature b) (block_size device)) ret /\
               bnum <= b < bnum + Z.of_nat (S fuel)).
    { exists bnum, err. split; [reflexivity | lia]. }
    destruct (err <? 0).
    + cbn. constructor; [exact Hhd | constructor].
    + specialize (IH (bnum + 1) s1).
      destruct (write_loop bio_write_block device fuel (bnum + 1) s1)
        as [[w s2] t].
      cbn [events snd app] in *. constructor; [exact Hhd |].
      eapply Forall_impl; [| exact IH].
      intros e (b & ret & -> & Hb). exists b, ret. split; [reflexivity | lia].
Qed.

Lemma write_test_events_split (s : state) :
  exists reads,
    events (write_test' s) = events (write_phase' s) ++ reads /\
    Forall (fun e => is_read e = true) reads /\
    (value (write_phase' s) = None ->
     map ev_block reads = block_indices device) /\
    (value (write_phase' s) <> None -> reads = []).
Proof.
  rewrite write_test_unfold. cbn zeta.
  destruct (value (write_phase' s)) as [err |].
  - exists []. cbn [events snd]. rewrite app_nil_r.
    repeat split; [constructor | discriminate].
  - eexists. cbn [events snd]. split; [reflexivity |].
    split; [apply verify_loop_reads |].
    split; [intros _; apply verify_loop_blocks | intros H; contradiction].
Qed.

(** X8: every write [write_test] issues is the write of one block of
    [0 .. block_count), and its buffer is [block_size] bytes long, all of
    them the signature of that block. *)
Theorem write_test_writes_signatures (s : state) :
  forall b c data ret,
    In (EvWrite b c data ret) (events (write_test' s)) ->
    c = 1 /\
    0 <= b < block_count device /\
    data = repeat (get_signature b) (Z.to_nat (block_size device)).
Proof.
  intros b c data ret Hin.
  destruct (write_test_events_split s) as (reads & Hev & Hreads & _).
  rewrite Hev in Hin. apply in_app_or in Hin. destruct Hin as [Hin | Hin].
  - pose proof (write_loop_data (Z.to_nat (block_count device)) 0 s) as H.
    rewrite Forall_forall in H. destruct (H _ Hin) as (b' & ret' & Heq & Hb).
    injection Heq as -> -> -> ->.
    split; [reflexivity |]. split; [lia |].
    unfold memset. rewrite get_signature_byte. reflexivity.
  - rewrite Forall_forall in Hreads. specialize (Hreads _ Hin). discriminate.
Qed.

Lemma io_events_app (t1 t2 : list event) :
  io_events (t1 ++ t2) = io_events t1 ++ io_events t2.
Proof. unfold io_events. apply filter_app. Qed.

Lemma io_events_id (t : list event) :
  Forall (fun e => is_print e = false) t -> io_events t = t.
Proof.
  intros H. unfold io_events. apply forallb_filter_id.
  apply forallb_forall. intros e He. rewrite Forall_forall in H.
  rewrite (H e He). reflexivity.
Qed.

Lemma reads_not_prints (t : list event) :
  Forall (fun e => is_read e = true) t ->
  Forall (fun e => is_print e = false) t.
Proof.
  intros H. eapply Forall_impl; [| exact H].
  intros [] He; try discriminate; reflexivity.
Qed.

Lemma writes_not_prints (t : list event) :
  Forall (fun e => is_write e = true) t ->
  Forall (fun e => is_print e = false) t.
Proof.
  intros H. eapply Forall_impl; [| exact H].
  intros [] He; try discriminate; reflexivity.
Qed.

(** The events of [erase_test], with the status of its erase call. *)
Lemma erase_test_events_erase (s : state) :
  exists reads,
    events (erase_test' s)
    = EvPrint "erasing device...\n" []
      :: EvErase 0 (total_size device)
           (fst (bio_erase s 0 (total_size device)))
      :: reads /\
    Forall (fun e => is_erase e = false) reads /\
    Forall (fun e => is_write e = false) reads.
Proof.
  rewrite erase_test_unfold. cbn zeta.
  destruct (fst (bio_erase s 0 (total_size device)) <? 0).
  { exists []. repeat split; constructor. }
  destruct (negb (fst (bio_erase s 0 (total_size device))
                  =? total_size device)).
  { exists []. repeat split; constructor. }
  eexists. split; [reflexivity |].
  pose proof (erase_validate_loop_reads wbits state device
                (Z.to_nat (block_count device)) 0 0
                (snd (bio_erase s 0 (total_size device)))) as Hr.
  split; (constructor; [reflexivity |]);
    (eapply Forall_impl; [| exact Hr]);
    intros [] He; try discriminate; reflexivity.
Qed.

(** X9: whatever happens, a run of [bio_test_device] erases exactly once:
    the call [bio_erase(device, 0, total_size)] is the first device call
    of the run, and no other erase follows it. *)
Theorem bio_test_device_erases_once (s : state) :
  let r := bio_test_device' s in
  let erase_call :=
    EvErase 0 (total_size device) (fst (bio_erase s 0 (total_size device))) in
  filter is_erase (events r) = [erase_call] /\
  exists rest,
    events r = EvPrint "erasing device...\n" [] :: erase_call :: rest /\
    Forall (fun e => is_erase e = false) rest.
Proof.
  intros r erase_call. subst r.
  assert (Hshape : exists rest,
             events (bio_test_device' s)
             = EvPrint "erasing device...\n" [] :: erase_call :: rest /\
             Forall (fun e => is_erase e = false) rest).
  { rewrite bio_test_device_unfold. cbn zeta.
    destruct (erase_test_events_erase s) as (reads & Hev & Hne & _).
    fold erase_call in Hev.
    destruct (value (erase_test' s) <? 0).
    { cbn [events snd]. rewrite Hev. eexists. split; [reflexivity |].
      apply Forall_app. split; [exact Hne | repeat constructor]. }
    destruct (negb (value (erase_test' s) =? 0)).
    { cbn [events snd]. rewrite Hev. eexists. split; [reflexivity |].
      apply Forall_app. split; [exact Hne | repeat constructor]. }
    cbn [events snd]. rewrite Hev. eexists. split; [reflexivity |].
    apply Forall_app. split; [exact Hne |].
    constructor; [reflexivity |].
    apply Forall_app. split; [| repeat constructor].
    destruct (write_test_events_split (final (erase_test' s)))
      as (rd & Hw & Hrd & _).
    rewrite Hw. apply Forall_app. split.
    - pose proof (write_loop_trace state bio_write_block device
                    (Z.to_nat (block_count device)) 0
                    (final (erase_test' s))) as [Hwr _].
      eapply Forall_impl; [| exact Hwr].
      intros [] He; try discriminate; reflexivity.
    - eapply Forall_impl; [| exact Hrd].
      intros [] He; try discriminate; reflexivity. }
  split; [| exact Hshape].
  destruct Hshape as (rest & -> & Hrest).
  cbn [filter is_erase]. f_equal.
  induction Hrest as [| e rest He _ IH]; [reflexivity |].
  cbn [filter]. rewrite He. exact IH.
Qed.

(** X10: the device calls of a run that ends in PASS are, in this order:
    the erase of the whole device, which reported [total_size]; a read of
    every block of [0 .. block_count); a write of every block; and a
    second read of every block. *)
Theorem bio_test_device_pass_schedule (s : state) :
  ERR_IO < 0 ->
  value (bio_test_device' s) = 0 ->
  exists reads1 writes reads2,
    io_events (events (bio_test_device' s))
    = EvErase 0 (total_size device) (total_size device)
      :: reads1 ++ writes ++ reads2 /\
    Forall (fun e => is_read e = true) reads1 /\
    map ev_block reads1 = block_indices device /\
    Forall (fun e => is_write e = true) writes /\
    map ev_block writes = block_indices device /\
    Forall (fun e => is_read e = true) reads2 /\
    map ev_block reads2 = block_indices device.
Proof.
  intros Hio Hpass.
  rewrite bio_test_device_unfold in Hpass |- *. cbn zeta in Hpass |- *.
  destruct (Z.ltb_spec (value (erase_test' s)) 0) as [| Hnn];
    [discriminate Hpass |].
  destruct (Z.eqb_spec (value (erase_test' s)) 0) as [He | He];
    [| discriminate Hpass].
  cbn [negb value events fst snd] in Hpass |- *.
  destruct (Z.eqb_spec (value (write_test' (final (erase_test' s)))) 0)
    as [Hw | Hw]; [| discriminate Hpass].
  clear Hpass.
  (* the erase phase went through its validation loop *)
  assert (Herase : exists reads1,
             events (erase_test' s)
             = [EvPrint "erasing device...\n" [];
                EvErase 0 (total_size device) (total_size device);
                EvPrint "validating erase...\n" []] ++ reads1 /\
             Forall (fun e => is_read e = true) reads1 /\
             map ev_block reads1 = block_indices device).
  { revert He Hnn. rewrite erase_test_unfold. cbn zeta.
    destruct (Z.ltb_spec (fst (bio_erase s 0 (total_size device))) 0)
      as [Hneg | Hpos]; [cbn; lia |].
    destruct (Z.eqb_spec (fst (bio_erase s 0 (total_size device)))
                (total_size device)) as [Heq | Hne]; [| cbn; lia].
    cbn [negb value events fst snd]. intros _ _. rewrite Heq.
    eexists. split; [reflexivity |].
    split; [apply erase_validate_loop_reads |
            apply erase_validate_loop_blocks]. }
  destruct Herase as (reads1 & Hev1 & Hr1 & Hb1).
  (* the write phase ran both of its loops *)
  set (s2 := final (erase_test' s)) in *.
  destruct (write_test_events_split s2) as (reads2 & Hev2 & Hr2 & Hb2 & _).
  pose proof (write_loop_trace state bio_write_block device
                (Z.to_nat (block_count device)) 0 s2) as [Hwr Hcase].
  fold (write_phase' s2) in Hwr, Hcase.
  assert (Hnone : value (write_phase' s2) = None).
  { revert Hw. rewrite write_test_unfold. cbn zeta.
    destruct (value (write_phase' s2)) as [err |]; [| reflexivity].
    cbn [value fst]. destruct Hcase as [Hneg _]. lia. }
  rewrite Hnone in Hcase. destruct Hcase as [Hbw _].
  exists reads1, (events (write_phase' s2)), reads2.
  split.
  - pose proof (io_events_id reads1 (reads_not_prints _ Hr1)) as F1.
    pose proof (io_events_id reads2 (reads_not_prints _ Hr2)) as F2.
    pose proof (io_events_id _ (writes_not_prints _ Hwr)) as F3.
    unfold io_events in F1, F2, F3 |- *.
    rewrite Hev1, Hev2.
    repeat (rewrite ?filter_app; cbn [filter is_print negb app]).
    rewrite F1, F2, F3, app_nil_r. reflexivity.
  - repeat split; try assumption. apply Hb2. exact Hnone.
Qed.

(** X11: on a well-formed device a negative result of [erase_test]
    always means that the erase call itself failed or fell short: a
    count of invalid blocks is never negative. *)
Theorem erase_test_negative_iff (s : state) :
  ERR_IO < 0 ->
  bdev_wf device ->
  ssize_t_range wbits (fst (bio_erase s 0 (total_size device))) ->
  (value (erase_test' s) < 0 <->
   fst (bio_erase s 0 (total_size device)) < 0 \/
   fst (bio_erase s 0 (total_size device)) <> total_size device).
Proof.
  intros Hio Hwf Hrange. split.
  - intros Hneg.
    destruct (Z_lt_le_dec (fst (bio_erase s 0 (total_size device))) 0)
      as [Hlt | Hge]; [left; exact Hlt |].
    destruct (Z.eq_dec (fst (bio_erase s 0 (total_size device)))
                (total_size device)) as [Heq | Hne]; [| right; exact Hne].
    exfalso.
    destruct (erased_block_count_fits wbits state device _ Hwf Hrange Heq)
      as [_ Hfit].
    rewrite (erase_test_scan wbits ERR_IO state bio_erase device s
               Hge Heq Hfit) in Hneg.
    cbn [value fst] in Hneg.
    pose proof (scan_count_fits wbits state device
                  (fun _ => [erase_byte device])
                  (snd (bio_erase s 0 (total_size device))) (proj1 Hfit)).
    lia.
  - intros Hfail. rewrite erase_test_unfold. cbn zeta.
    destruct (Z.ltb_spec (fst (bio_erase s 0 (total_size device))) 0)
      as [Hneg | Hnn]; [exact Hneg |].
    destruct (Z.eqb_spec (fst (bio_erase s 0 (total_size device)))
                (total_size device)) as [Heq | Hne]; [lia | exact Hio].
Qed.

(** X12: a negative result of [write_test] always means that a write
    failed: with a block count that fits the returned [ssize_t], the
    result is negative exactly when some write of the first loop
    reported a negative status. *)
Theorem write_test_negative_iff (s : state) :
  0 <= block_count device <= ssize_max wbits ->
  (value (write_test' s) < 0 <-> ~ writes_succeed bio_write_block device s).
Proof.
  intros Hfit. rewrite writes_succeed_iff. split.
  - intros Hneg Hnone.
    rewrite (write_test_scan wbits state bio_write_block device s Hfit Hnone)
      in Hneg.
    cbn [value fst] in Hneg.
    pose proof (scan_count_fits wbits state device
                  (fun b => [get_signature b])
                  (final (write_phase' s)) (proj1 Hfit)).
    lia.
  - intros Hsome. rewrite write_test_unfold. cbn zeta.
    pose proof (write_loop_trace state bio_write_block device
                  (Z.to_nat (block_count device)) 0 s) as [_ H].
    fold (write_phase' s) in H.
    destruct (value (write_phase' s)) as [err |]; [| contradiction].
    cbn [value fst]. apply H.
Qed.

(** X13: a device without blocks passes as soon as the erase call reports
    [total_size]: the run issues that call and no other, and prints zero
    errors for both phases. *)
Theorem bio_test_device_no_blocks (s : state) :
  block_count device = 0 ->
  0 <= total_size device ->
  fst (bio_erase s 0 (total_size device)) = total_size device ->
  bio_test_device' s =
  (0, snd (bio_erase s 0 (total_size device)),
   [EvPrint "erasing device...\n" [];
    EvErase 0 (total_size device) (total_size device);
    EvPrint "validating erase...\n" [];
    EvPrint "discovered %ld error(s) while testing erase.\n" [0];
    EvPrint "Discovered %ld error(s) while testing write.\n" [0]]).
Proof.
  intros Hbc Hpos Hall.
  assert (Hz : to_ssize_t wbits 0 = 0).
  { unfold to_ssize_t. rewrite Z.add_0_l.
    destruct (Z_lt_le_dec wbits 1) as [Hsmall | Hbig].
    - rewrite (Z.pow_neg_r 2 (wbits - 1)) by lia.
      rewrite Zmod_0_l. reflexivity.
    - rewrite (pow_wbits_double wbits Hbig).
      assert (0 < 2 ^ (wbits - 1)) by (apply Z.pow_pos_nonneg; lia).
      rewrite Z.mod_small; lia. }
  assert (He : erase_test' s =
               (0, snd (bio_erase s 0 (total_size device)),
                [EvPrint "erasing device...\n" [];
                 EvErase 0 (total_size device) (total_size device);
                 EvPrint "validating erase...\n" []])).
  { rewrite erase_test_unfold. cbn zeta. rewrite Hall, Hbc.
    destruct (Z.ltb_spec (total_size device) 0) as [| _]; [lia |].
    rewrite Z.eqb_refl. cbn. rewrite Hz. reflexivity. }
  assert (Hw : forall s', write_test' s' = (0, s', [])).
  { intros s'. unfold write_test. rewrite Hbc. cbn. rewrite Hz. reflexivity. }
  rewrite bio_test_device_unfold. cbn zeta. rewrite He.
  cbn [value final events fst snd]. rewrite Hw. reflexivity.
Qed.

End Schedule.

(** ** The ideal device passes *)

Section IdealDevice.

Variable wbits : Z.
Variable ERR_IO : Z.
Variables size count byte : Z.

Hypothesis size_pos : 0 < size.
Hypothesis count_pos : 0 < count.
Hypothesis total_fits : size * count <= ssize_max wbits.

Local Abbreviation dev := (Ram.device size count byte).

Lemma ram_size_fits : 0 <= size <= ssize_max wbits.
Proof. split; [lia | nia]. Qed.

Lemma ram_count_fits : 0 <= block_count dev <= ssize_max wbits.
Proof. cbn. split; [lia | nia]. Qed.

(** Reading the ideal device returns whole blocks and leaves it as it
    is. *)
Lemma ram_read_blocks (bnums : list Z) (s : Ram.ram) :
  read_blocks dev bnums s = map (fun b => (b, size, s b)) bnums.
Proof.
  induction bnums as [| b rest IH]; [reflexivity |].
  cbn [read_blocks map]. cbn [read_block dev Ram.device Ram.read].
  rewrite Z.mul_1_r. f_equal. exact IH.
Qed.

(** A scan of blocks that are filled with their byte finds no invalid
    block. *)
Lemma ram_scan_clean (byte_of : Z -> Z) (bnums : list Z) (s : Ram.ram) :
  (forall b, In b bnums -> s b = repeat (byte_of b) (Z.to_nat size)) ->
  count_invalid
    (value (validate_blocks wbits dev (fun b => [byte_of b]) bnums s)) = 0.
Proof.
  intros Hfilled. apply all_valid_count_zero.
  apply filled_blocks_validate; [exact ram_size_fits |].
  rewrite ram_read_blocks. apply Forall_forall.
  intros r Hr. apply in_map_iff in Hr. destruct Hr as (b & <- & Hb).
  cbn [fst snd block_size dev Ram.device].
  split; [reflexivity | apply Hfilled; exact Hb].
Qed.

Lemma ram_erase_test_zero (s : Ram.ram) :
  value (erase_test wbits ERR_IO (Ram.erase size byte) dev s) = 0.
Proof.
  rewrite erase_test_scan.
  - cbn [value fst]. apply ram_scan_clean.
    intros b Hb. apply block_indices_In in Hb.
    cbn [block_count dev Ram.device] in Hb.
    cbn [snd Ram.erase total_size dev Ram.device].
    destruct (Z.leb_spec 0 (b * size)) as [_ | Hbad]; [| nia].
    destruct (Z.leb_spec ((b + 1) * size) (0 + size * count))
      as [_ | Hbad]; [reflexivity | nia].
  - cbn. nia.
  - reflexivity.
  - exact ram_count_fits.
Qed.

(** The first loop of [write_test] never fails on the ideal device,
    leaves every block it covered filled with its signature and the
    other blocks as they were. *)
Lemma ram_write_loop :
  forall (fuel : nat) (bnum : Z) (s : Ram.ram),
    let r := write_loop (Ram.write size) dev fuel bnum s in
    value r = None /\
    (forall b, bnum <= b < bnum + Z.of_nat fuel ->
               final r b = repeat (get_signature b) (Z.to_nat size)) /\
    (forall b, ~ bnum <= b < bnum + Z.of_nat fuel -> final r b = s b).
Proof.
  induction fuel as [| fuel IH]; intros bnum s.
  - cbn. split; [reflexivity |]. split; [intros b Hb; lia | reflexivity].
  - cbn [write_loop]. unfold bind, do_bio_write_block.
    cbn [Ram.write block_size dev Ram.device].
    destruct (Z.ltb_spec (size * 1) 0) as [| _]; [lia |].
    specialize (IH (bnum + 1)
                   (fun b => if b =? bnum
                             then memset (get_signature bnum) size
                             else s b)).
    cbn zeta in IH.
    destruct (write_loop (Ram.write size) dev fuel (bnum + 1)
                (fun b => if b =? bnum
                          then memset (get_signature bnum) size
                          else s b)) as [[w s2] t].
    cbn [value final fst snd] in *.
    destruct IH as (Hnone & Hfilled & Hframe).
    split; [exact Hnone |]. split.
    + intros b Hb.
      destruct (Z.eq_dec b bnum) as [-> | Hne]; [| apply Hfilled; lia].
      rewrite Hframe by lia. rewrite Z.eqb_refl.
      unfold memset. rewrite get_signature_byte. reflexivity.
    + intros b Hb. rewrite Hframe by lia.
      destruct (Z.eqb_spec b bnum) as [-> | _]; [lia | reflexivity].
Qed.

Lemma ram_write_test_zero (s : Ram.ram) :
  value (write_test wbits (Ram.write size) dev s) = 0.
Proof.
  pose proof (ram_write_loop (Z.to_nat (block_count dev)) 0 s)
    as (Hnone & Hfilled & _).
  fold (write_phase (Ram.write size) dev s) in Hnone, Hfilled.
  rewrite (write_test_scan wbits Ram.ram (Ram.write size) dev s
             ram_count_fits Hnone).
  cbn [value fst]. apply ram_scan_clean.
  intros b Hb. apply block_indices_In in Hb. apply Hfilled. lia.
Qed.

(** X14: the test has no false alarm: on a device that stores what is
    written, reads [erase_byte] after an erase and never fails,
    [bio_test_device] returns PASS from any initial contents, provided
    the size of the device fits the [ssize_t] that [bio_erase] returns. *)
Theorem ideal_device_passes (s : Ram.ram) :
  value (bio_test_device wbits ERR_IO (Ram.erase size byte) (Ram.write size)
                         dev s) = 0.
Proof.
  rewrite bio_test_device_unfold. cbn zeta.
  rewrite ram_erase_test_zero. cbn [Z.ltb Z.eqb negb Z.compare].
  rewrite ram_write_test_zero. reflexivity.
Qed.

End IdealDevice.

(** ** cmd_bio *)

Section CmdBioProps.

Variable wbits : Z.
Variable tbits : Z.
Variable ERR_IO : Z.
Variable state : Type.
Variable handle : Type.
Variable bdev_of : handle -> bdev state.
Variable bio_dump_devices : state -> state.
Variable bio_open : state -> string -> option handle * state.
Variable bio_close : state -> handle -> state.
Variable bio_read : state -> handle -> buffer -> Z -> Z -> Z * list Z * state.
Variable bio_write : state -> handle -> Z -> Z -> Z -> Z * state.
Variable bio_erase : handle -> state -> Z -> Z -> Z * state.
Variable bio_write_block : handle -> state -> list Z -> Z -> Z -> Z * state.
Variable bio_ioctl : state -> handle -> Z -> Z -> Z * state.
Variable bio_unregister_device : state -> handle -> state.
Variable current_time : state -> Z * state.

Local Abbreviation cmd_bio' :=
  (cmd_bio wbits tbits ERR_IO bdev_of bio_dump_devices bio_open bio_close
           bio_read bio_write bio_erase bio_write_block bio_ioctl
           bio_unregister_device current_time).
Local Abbreviation CM' := (CM state handle).

Lemma cbind_arg {B : Type} (argv : list cmd_args) (k : nat)
      (f : cmd_args -> CM' B) (s : state) :
  cbind (arg argv k) f s =
  match nth_error argv k with
  | Some a => f a s
  | None => (None, s, [])
  end.
Proof.
  unfold cbind, arg. destruct (nth_error argv k) as [a |]; [| reflexivity].
  unfold cret. destruct (f a s) as [[b s2] t2]. reflexivity.
Qed.


Lemma notenoughargs_run (a0 : cmd_args) (rest : list cmd_args) (s : state) :
  notenoughargs (a0 :: rest) s
  = (Some (-1), s,
     CPrintf "not enough arguments:\n" [] :: @usage_lines handle (str a0)).
Proof. reflexivity. Qed.

(** X15: [cmd_bio] rejects a command line before it touches any device:
    with fewer than two arguments, or fewer than the subcommand asks for,
    it prints "not enough arguments:" and the usage text; with a word
    that is no subcommand it prints "unrecognized subcommand" and the
    usage text.  It returns -1 and the state is unchanged. *)
Theorem cmd_bio_rejects_bad_command_line
        (argc : Z) (a0 : cmd_args) (rest : list cmd_args) (s : state) :
  (argc < 2 ->
   cmd_bio' argc (a0 :: rest) s
   = (Some (-1), s,
      CPrintf "not enough arguments:\n" [] :: usage_lines (str a0))) /\
  (forall a1 n,
      2 <= argc -> nth_error rest 0 = Some a1 ->
      required_argc (str a1) = Some n -> argc < n ->
      cmd_bio' argc (a0 :: rest) s
      = (Some (-1), s,
         CPrintf "not enough arguments:\n" [] :: usage_lines (str a0))) /\
  (forall a1,
      2 <= argc -> nth_error rest 0 = Some a1 ->
      required_argc (str a1) = None ->
      cmd_bio' argc (a0 :: rest) s
      = (Some (-1), s,
         CPrintf "unrecognized subcommand\n" [] :: usage_lines (str a0))).
Proof.
  split; [| split].
  - intros Hargc. unfold cmd_bio.
    destruct (Z.ltb_spec argc 2) as [_ | Hge]; [| lia].
    apply notenoughargs_run.
  - intros a1 n Hargc Ha1 Hreq Hlt. unfold cmd_bio.
    destruct (Z.ltb_spec argc 2) as [| _]; [lia |].
    rewrite cbind_arg.
    change (nth_error (a0 :: rest) 1) with (nth_error rest 0). rewrite Ha1.
    unfold required_argc in Hreq.
    destruct (String.eqb (str a1) "list");
      [injection Hreq as <-; lia |].
    destruct (String.eqb (str a1) "read").
    { injection Hreq as <-.
      destruct (Z.ltb_spec argc 6) as [_ |]; [| lia].
      apply notenoughargs_run. }
    destruct (String.eqb (str a1) "write").
    { injection Hreq as <-.
      destruct (Z.ltb_spec argc 6) as [_ |]; [| lia].
      apply notenoughargs_run. }
    destruct (String.eqb (str a1) "dump").
    { injection Hreq as <-.
      destruct (Z.ltb_spec argc 5) as [_ |]; [| lia].
      apply notenoughargs_run. }
    destruct (String.eqb (str a1) "erase").
    { injection Hreq as <-.
      destruct (Z.ltb_spec argc 5) as [_ |]; [| lia].
      apply notenoughargs_run. }
    destruct (String.eqb (str a1) "ioctl").
    { injection Hreq as <-.
      destruct (Z.ltb_spec argc 4) as [_ |]; [| lia].
      apply notenoughargs_run. }
    destruct (String.eqb (str a1) "remove").
    { injection Hreq as <-.
      destruct (Z.ltb_spec argc 3) as [_ |]; [| lia].
      apply notenoughargs_run. }
    destruct (String.eqb (str a1) "test").
    { injection Hreq as <-.
      destruct (Z.ltb_spec argc 3) as [_ |]; [| lia].
      apply notenoughargs_run. }
    discriminate Hreq.
  - intros a1 Hargc Ha1 Hreq. unfold cmd_bio.
    destruct (Z.ltb_spec argc 2) as [| _]; [lia |].
    rewrite cbind_arg.
    change (nth_error (a0 :: rest) 1) with (nth_error rest 0). rewrite Ha1.
    unfold required_argc in Hreq.
    destruct (String.eqb (str a1) "list"); [discriminate Hreq |].
    destruct (String.eqb (str a1) "read"); [discriminate Hreq |].
    destruct (String.eqb (str a1) "write"); [discriminate Hreq |].
    destruct (String.eqb (str a1) "dump"); [discriminate Hreq |].
    destruct (String.eqb (str a1) "erase"); [discriminate Hreq |].
    destruct (String.eqb (str a1) "ioctl"); [discriminate Hreq |].
    destruct (String.eqb (str a1) "remove"); [discriminate Hreq |].
    destruct (String.eqb (str a1) "test"); [discriminate Hreq |].
    reflexivity.
Qed.

Lemma with_device_run (argv : list cmd_args) (a2 : cmd_args)
      (k : handle -> CM' Z) (s : state) :
  nth_error argv 2 = Some a2 ->
  with_device bio_open argv k s =
  match fst (bio_open s (str a2)) with
  | None =>
      (Some (-1), snd (bio_open s (str a2)),
       [COpen (str a2) None; CPrintf "error opening block device\n" []])
  | Some dev =>
      let r := k dev (snd (bio_open s (str a2))) in
      (fst (fst r), snd (fst r), COpen (str a2) (Some dev) :: snd r)
  end.
Proof.
  intros Ha2. unfold with_device. rewrite cbind_arg, Ha2.
  unfold cbind, c_bio_open.
  destruct (bio_open s (str a2)) as [[dev |] s1]; cbn [fst snd].
  - destruct (k dev s1) as [[v s2] t]. reflexivity.
  - reflexivity.
Qed.



(** X17: [bio test <device>] is [bio_test_device] on the device that
    [bio_open] returned: the command returns its verdict, all its device
    calls lie between the open and the close, and the device is closed
    whatever the verdict. *)
Theorem cmd_bio_test_runs_conformance_test
        (argc : Z) (argv : list cmd_args) (a1 a2 : cmd_args) (dev : handle)
        (s : state) :
  nth_error argv 1 = Some a1 ->
  nth_error argv 2 = Some a2 ->
  str a1 = "test"%string ->
  3 <= argc ->
  fst (bio_open s (str a2)) = Some dev ->
  let r :=
    bio_test_device wbits ERR_IO (bio_erase dev) (bio_write_block dev)
                    (bdev_of dev) (snd (bio_open s (str a2))) in
  cmd_bio' argc argv s
  = (Some (value r), bio_close (final r) dev,
     COpen (str a2) (Some dev) :: map (CTest dev) (events r)
     ++ [CClose dev]).
Proof.
  intros Ha1 Ha2 Htest Hargc Hopen r. unfold cmd_bio.
  destruct (Z.ltb_spec argc 2) as [| _]; [lia |].
  rewrite cbind_arg, Ha1, Htest. cbn [String.eqb Ascii.eqb Bool.eqb andb].
  destruct (Z.ltb_spec argc 3) as [| _]; [lia |].
  rewrite (with_device_run _ a2 _ _ Ha2), Hopen. cbn zeta.
  unfold cbind, c_bio_test_device, c_bio_close, cret. fold r.
  destruct r as [[v s2] t]. reflexivity.
Qed.








Lemma chunks_nil (offset len : Z) : len <= 0 -> chunks offset len = [].
Proof.
  intros H. unfold chunks.
  assert (Hq : (len + 255) / 256 <= 0).
  { assert ((len + 255) / 256 < 1); [| lia].
    apply Z.div_lt_upper_bound; lia. }
  replace (Z.to_nat ((len + 255) / 256)) with 0%nat by lia. reflexivity.
Qed.

Lemma chunks_step (offset len : Z) :
  0 < len ->
  chunks offset len
  = (offset, Z.min 256 len)
    :: chunks (offset + Z.min 256 len) (len - Z.min 256 len).
Proof.
  intros Hlen. destruct (Z_le_gt_dec len 256) as [Hsmall | Hbig].
  - rewrite (Z.min_r 256 len) by lia.
    rewrite (chunks_nil (offset + len) (len - len)) by lia.
    unfold chunks.
    replace ((len + 255) / 256) with 1.
    2:{ apply Z.div_unique_pos with (r := len - 1); lia. }
    change (Z.to_nat 1) with 1%nat. cbn [seq map].
    change (Z.of_nat 0) with 0.
    rewrite Z.mul_0_r, Z.add_0_r, Z.sub_0_r, Z.min_r by lia. reflexivity.
  - rewrite (Z.min_l 256 len) by lia. unfold chunks.
    replace (len + 255) with (len - 256 + 255 + 1 * 256) by lia.
    rewrite Z.div_add by lia.
    assert (Hq : 0 <= (len - 256 + 255) / 256) by (apply Z.div_pos; lia).
    replace (Z.to_nat ((len - 256 + 255) / 256 + 1))
      with (S (Z.to_nat ((len - 256 + 255) / 256))) by lia.
    cbn [seq map]. rewrite <- seq_shift, map_map.
    f_equal.
    + f_equal; [lia |]. rewrite Z.min_l by lia. reflexivity.
    + apply map_ext. intros i. f_equal; [lia |]. f_equal. lia.
Qed.

Lemma to_size_t_le (z : Z) : 0 <= z -> to_size_t wbits z <= z.
Proof.
  intros Hz. unfold to_size_t.
  destruct (Z.eq_dec (2 ^ wbits) 0) as [H0 | Hn0].
  - rewrite H0, Z.mod_0_r. lia.
  - apply Z.mod_le; [exact Hz |].
    assert (0 <= 2 ^ wbits) by (apply Z.pow_nonneg; lia). lia.
Qed.

(** The loop of [dump] ends by itself: fuel beyond [len] changes
    nothing. *)
Lemma dump_loop_fuel (dev : handle) (name : string) :
  forall (fuel fuel' : nat) (offset len : Z) (s : state),
    len <= Z.of_nat fuel -> len <= Z.of_nat fuel' ->
    dump_loop wbits bio_read fuel dev name offset len s
    = dump_loop wbits bio_read fuel' dev name offset len s.
Proof.
  induction fuel as [| fuel IH]; intros fuel' offset len s Hlen Hlen'.
  - destruct fuel' as [| fuel']; [reflexivity |].
    cbn [dump_loop]. destruct (Z.gtb_spec len 0) as [| _]; [lia |].
    reflexivity.
  - destruct fuel' as [| fuel'].
    + cbn [dump_loop]. destruct (Z.gtb_spec len 0) as [| _]; [lia |].
      reflexivity.
    + cbn [dump_loop].
      destruct (Z.gtb_spec len 0) as [Hpos | _]; [| reflexivity].
      cbn [negb]. unfold cbind at 1 3. unfold c_bio_read.
      destruct (bio_read s dev DumpBuffer offset (Z.min 256 len))
        as [[err buf] s1].
      destruct (err <? 0); [reflexivity |].
      destruct (Z.min 256 len <? to_size_t wbits err); [reflexivity |].
      unfold cbind, cemit.
      destruct (negb (to_size_t wbits err =? Z.min 256 len)); [reflexivity |].
      destruct (off_max <? offset + Z.min 256 len); [reflexivity |].
      rewrite (IH fuel') by lia. reflexivity.
Qed.

(** The reads of the loop of [dump], one by one. *)
Lemma dump_loop_reads (dev : handle) (name : string) :
  forall (fuel : nat) (offset len : Z) (s : state),
    len <= Z.of_nat fuel ->
    let r := dump_loop wbits bio_read fuel dev name offset len s in
    let rs := reads_of (snd r) in
    map fst rs = firstn (List.length rs) (chunks offset len) /\
    (forall i x, nth_error rs i = Some x -> (S i < List.length rs)%nat ->
                 full_read wbits x) /\
    (fst (fst r) <> None -> Forall (full_read wbits) rs ->
     map fst rs = chunks offset len).
Proof.
  induction fuel as [| fuel IH]; intros offset len s Hlen.
  - cbn. rewrite chunks_nil by lia.
    split; [reflexivity |].
    split; [intros i x Hx; destruct i; discriminate | reflexivity].
  - cbn [dump_loop].
    destruct (Z.gtb_spec len 0) as [Hpos | Hnp]; cbn [negb].
    2:{ cbn. rewrite chunks_nil by lia.
        split; [reflexivity |].
        split; [intros i x Hx; destruct i; discriminate | reflexivity]. }
    rewrite (chunks_step offset len Hpos).
    unfold cbind, c_bio_read, c_dprintf, cemit, undefined.
    destruct (bio_read s dev DumpBuffer offset (Z.min 256 len))
      as [[err buf] s1].
    assert (Hone :
              forall (v : option unit) (s' : state)
                     (t : list (cmd_event handle)),
                reads_of t = [] ->
                (v <> None -> ~ full_read wbits (offset, Z.min 256 len, err)) ->
                let r := (v, s', CRead dev DumpBuffer offset (Z.min 256 len) err
                                 :: t) in
                let rs := reads_of (snd r) in
                map fst rs
                = firstn (List.length rs)
                    ((offset, Z.min 256 len)
                     :: chunks (offset + Z.min 256 len)
                               (len - Z.min 256 len)) /\
                (forall i x, nth_error rs i = Some x ->
                             (S i < List.length rs)%nat -> full_read wbits x) /\
                (fst (fst r) <> None -> Forall (full_read wbits) rs ->
                 map fst rs
                 = (offset, Z.min 256 len)
                   :: chunks (offset + Z.min 256 len)
                             (len - Z.min 256 len))).
    { intros v s' t Ht Hnf. cbn [snd fst reads_of]. rewrite Ht.
      split; [reflexivity |]. split.
      - intros i x Hx Hi. cbn in Hi. lia.
      - intros Hdef Hall. inversion Hall as [| ? ? Hf _]; subst.
        exfalso. exact (Hnf Hdef Hf). }
    destruct (Z.ltb_spec err 0) as [Hneg | Hnn].
    { cbn [app]. apply Hone; [reflexivity |].
      intros _ [H0 _]. cbn in H0. lia. }
    destruct (Z.ltb_spec (Z.min 256 len) (to_size_t wbits err))
      as [Hover | Hfit].
    { cbn [app]. apply Hone; [reflexivity |].
      intros H. contradiction. }
    destruct (Z.eqb_spec (to_size_t wbits err) (Z.min 256 len))
      as [Hfull | Hshort]; cbn [negb].
    2:{ cbn [app]. apply Hone; [reflexivity |].
        intros _ [_ H]. cbn in H. contradiction. }
    destruct (off_max <? offset + Z.min 256 len).
    { cbn [app]. apply Hone; [reflexivity |].
      intros H. contradiction. }
    specialize (IH (offset + Z.min 256 len) (len - Z.min 256 len) s1
                   ltac:(lia)).
    cbn zeta in IH.
    destruct (dump_loop wbits bio_read fuel dev name
                (offset + Z.min 256 len) (len - Z.min 256 len) s1)
      as [[v s2] t].
    cbn [fst snd app reads_of] in *.
    destruct IH as (IH1 & IH2 & IH3).
    cbn [map fst List.length firstn].
    split; [f_equal; exact IH1 |]. split.
    + intros i x Hx Hi. destruct i as [| i].
      * injection Hx as <-. split; cbn [fst snd]; [exact Hnn | exact Hfull].
      * apply (IH2 i x Hx). cbn [List.length] in Hi. lia.
    + intros Hdef Hall. inversion Hall as [| ? ? _ Hrest]; subst.
      f_equal. apply IH3; assumption.
Qed.

(** X19: [bio dump] reads the range in pieces of at most 256 bytes, piece
    [i] at [offset + 256 * i], never anything outside the range nor any
    piece twice; it stops at the first read that fails or falls short, so
    every read but the last one was a full read; and when no read fails
    or falls short, the pieces it read cover the whole range. *)
Theorem dump_reads_follow_chunks (dev : handle) (name : string)
        (offset len : Z) (s : state) :
  let r := dump_loop wbits bio_read (Z.to_nat len) dev name offset len s in
  let rs := reads_of (snd r) in
  map fst rs = firstn (List.length rs) (chunks offset len) /\
  (forall i x, nth_error rs i = Some x -> (S i < List.length rs)%nat ->
               full_read wbits x) /\
  (fst (fst r) <> None -> Forall (full_read wbits) rs ->
   map fst rs = chunks offset len).
Proof. apply dump_loop_reads. lia. Qed.

(** The loop of [dump] is defined when no read reports more than it was
    asked for and the end of the range fits an [off_t]. *)
Lemma dump_loop_defined (dev : handle) (name : string) :
  (forall s' off n, 0 <= n ->
                    fst (fst (bio_read s' dev DumpBuffer off n)) <= n) ->
  forall (fuel : nat) (offset len : Z) (s : state),
    offset + len <= off_max ->
    fst (fst (dump_loop wbits bio_read fuel dev name offset len s))
    = Some tt.
Proof.
  intros Hread. induction fuel as [| fuel IH]; intros offset len s Hend.
  - reflexivity.
  - cbn [dump_loop].
    destruct (Z.gtb_spec len 0) as [Hpos | _]; [| reflexivity].
    cbn [negb]. unfold cbind, c_bio_read, c_dprintf, cemit, undefined.
    pose proof (Hread s offset (Z.min 256 len) ltac:(lia)) as Hr.
    destruct (bio_read s dev DumpBuffer offset (Z.min 256 len))
      as [[err buf] s1].
    cbn [fst] in Hr.
    destruct (Z.ltb_spec err 0) as [| Hnn]; [reflexivity |].
    pose proof (to_size_t_le err Hnn) as Hle.
    destruct (Z.ltb_spec (Z.min 256 len) (to_size_t wbits err)) as [| _];
      [lia |].
    destruct (negb (to_size_t wbits err =? Z.min 256 len)); [reflexivity |].
    destruct (Z.ltb_spec off_max (offset + Z.min 256 len)) as [| _]; [lia |].
    specialize (IH (offset + Z.min 256 len) (len - Z.min 256 len) s1
                   ltac:(lia)).
    destruct (dump_loop wbits bio_read fuel dev name
                (offset + Z.min 256 len) (len - Z.min 256 len) s1)
      as [[v s2] t].
    exact IH.
Qed.

(** X20: the exit status of [bio dump] is 0 whenever the command
    returns, a failed or short read included: the status of the reads is
    printed but never returned.  The command does return when no read
    reports more than it was asked for and the end of the range fits an
    [off_t]. *)
Theorem cmd_bio_dump_status
        (argc : Z) (argv : list cmd_args) (a1 a2 a3 a4 : cmd_args)
        (dev : handle) (s : state) :
  nth_error argv 1 = Some a1 ->
  nth_error argv 2 = Some a2 ->
  nth_error argv 3 = Some a3 ->
  nth_error argv 4 = Some a4 ->
  str a1 = "dump"%string ->
  5 <= argc ->
  fst (bio_open s (str a2)) = Some dev ->
  let r := cmd_bio' argc argv s in
  (forall v, fst (fst r) = Some v -> v = 0) /\
  ((forall s' off n, 0 <= n ->
                     fst (fst (bio_read s' dev DumpBuffer off n)) <= n) ->
   to_off_t (u a3) + to_size_t wbits (u a4) <= off_max ->
   fst (fst r) = Some 0).
Proof.
  intros Ha1 Ha2 Ha3 Ha4 Hdump Hargc Hopen r. subst r. unfold cmd_bio.
  destruct (Z.ltb_spec argc 2) as [| _]; [lia |].
  rewrite cbind_arg, Ha1, Hdump. cbn [String.eqb Ascii.eqb Bool.eqb andb].
  destruct (Z.ltb_spec argc 5) as [| _]; [lia |].
  rewrite cbind_arg, Ha3, cbind_arg, Ha4.
  rewrite (with_device_run _ a2 _ _ Ha2), Hopen. cbn zeta.
  rewrite cbind_arg, Ha2. cbn [fst snd].
  unfold cbind, c_bio_close, cret.
  pose proof (dump_loop_defined dev (str a2)) as Hdef.
  destruct (dump_loop wbits bio_read (Z.to_nat (to_size_t wbits (u a4))) dev
              (str a2) (to_off_t (u a3)) (to_size_t wbits (u a4))
              (snd (bio_open s (str a2)))) as [[v s2] t] eqn:Hloop.
  split.
  - destruct v as [[] |]; cbn [fst]; intros v' Hv;
      [injection Hv as <-; reflexivity | discriminate Hv].
  - intros Hread Hend.
    specialize (Hdef Hread (Z.to_nat (to_size_t wbits (u a4)))
                     (to_off_t (u a3)) (to_size_t wbits (u a4))
                     (snd (bio_open s (str a2))) Hend).
    rewrite Hloop in Hdef. cbn [fst] in Hdef. subst v. reflexivity.
Qed.

End CmdBioProps.

(** ** Worked runs of the added properties *)

Lemma is_valid_block_true_exact_witness :
  fst (fst (read_block (Sim.device Sim.healthy) Sim.erased 0 1)) = 4 /\
  4 <= ssize_max Sim.wbits.
Proof.
  apply (is_valid_block_true_exact Sim.wbits Sim.ram (Sim.device Sim.healthy)
           0 [0] 1 Sim.erased).
  - unfold Sim.wbits. lia.
  - unfold Sim.wbits. cbn. lia.
  - vm_compute. reflexivity.
Defined.

Lemma erase_test_zero_reads_erase_byte_witness :
  Forall (reads_back (Sim.device Sim.healthy) (fun _ => 0))
         (read_blocks (Sim.device Sim.healthy) [0; 1; 2; 3] Sim.erased).
Proof.
  apply (erase_test_zero_reads_erase_byte Sim.wbits Sim.ERR_IO Sim.ram
           (Sim.erase Sim.healthy) (Sim.device Sim.healthy) Sim.fresh).
  - unfold Sim.ERR_IO. lia.
  - apply SimRuns.device_wf.
  - unfold Sim.wbits. cbn. lia.
  - apply SimRuns.ssize_range_32. cbn. lia.
  - vm_compute. reflexivity.
Defined.

Lemma write_test_zero_reads_signatures_witness :
  writes_succeed (Sim.write Sim.healthy) (Sim.device Sim.healthy) Sim.erased.
Proof.
  apply (write_test_zero_reads_signatures Sim.wbits Sim.ram
           (Sim.write Sim.healthy) (Sim.device Sim.healthy) Sim.erased).
  - apply SimRuns.block_count_fits.
  - unfold Sim.wbits. cbn. lia.
  - vm_compute. reflexivity.
Defined.

Lemma bio_test_device_pass_certifies_witness :
  writes_succeed (Sim.write Sim.healthy) (Sim.device Sim.healthy)
                 (final (Sim.run_erase_test Sim.healthy)).
Proof.
  apply (bio_test_device_pass_certifies Sim.wbits Sim.ERR_IO Sim.ram
           (Sim.erase Sim.healthy) (Sim.write Sim.healthy)
           (Sim.device Sim.healthy) Sim.fresh).
  - unfold Sim.ERR_IO. lia.
  - apply SimRuns.device_wf.
  - unfold Sim.wbits. cbn. lia.
  - apply SimRuns.ssize_range_32. cbn. lia.
  - vm_compute. reflexivity.
Defined.

Lemma write_test_writes_signatures_witness :
  1 = 1 /\ 0 <= 2 < 4 /\ [2; 2; 2; 2] = repeat (get_signature 2) 4.
Proof.
  apply (write_test_writes_signatures Sim.wbits Sim.ram
           (Sim.write Sim.healthy) (Sim.device Sim.healthy) Sim.erased
           2 1 [2; 2; 2; 2] 4).
  vm_compute. right. right. left. reflexivity.
Defined.

Lemma bio_test_device_pass_schedule_witness :
  exists reads1 writes reads2,
    io_events (events (Sim.run_test Sim.healthy))
    = EvErase 0 16 16 :: reads1 ++ writes ++ reads2 /\
    map ev_block writes = [0; 1; 2; 3].
Proof.
  destruct (bio_test_device_pass_schedule Sim.wbits Sim.ERR_IO Sim.ram
              (Sim.erase Sim.healthy) (Sim.write Sim.healthy)
              (Sim.device Sim.healthy) Sim.fresh)
    as (r1 & w & r2 & H1 & _ & _ & _ & H5 & _).
  - unfold Sim.ERR_IO. lia.
  - vm_compute. reflexivity.
  - exists r1, w, r2. split; [exact H1 | exact H5].
Defined.

Lemma erase_test_negative_iff_witness :
  value (Sim.run_erase_test Sim.short_erase) < 0.
Proof.
  apply (erase_test_negative_iff Sim.wbits Sim.ERR_IO Sim.ram
           (Sim.erase Sim.short_erase) (Sim.device Sim.short_erase)
           Sim.fresh).
  - unfold Sim.ERR_IO. lia.
  - apply SimRuns.device_wf.
  - apply SimRuns.ssize_range_32. cbn. lia.
  - right. cbn. lia.
Defined.

Lemma write_test_negative_iff_witness :
  ~ value (Sim.run_write_test Sim.healthy Sim.erased) < 0.
Proof.
  intros Hneg.
  apply (proj1 (write_test_negative_iff Sim.wbits Sim.ram
                  (Sim.write Sim.healthy) (Sim.device Sim.healthy)
                  Sim.erased (SimRuns.block_count_fits Sim.healthy)) Hneg).
  apply writes_succeed_iff. vm_compute. reflexivity.
Defined.

Lemma bio_test_device_no_blocks_witness :
  value (bio_test_device 32 (-20) (Ram.erase 4 0) (Ram.write 4)
                         (Ram.device 4 0 0) (fun _ => [])) = 0.
Proof.
  rewrite (bio_test_device_no_blocks 32 (-20) Ram.ram (Ram.erase 4 0)
             (Ram.write 4) (Ram.device 4 0 0) (fun _ => [])).
  - reflexivity.
  - reflexivity.
  - cbn. lia.
  - reflexivity.
Defined.

Lemma ideal_device_passes_witness :
  value (bio_test_device 32 (-20) (Ram.erase 512 255) (Ram.write 512)
                         (Ram.device 512 8 255) (fun _ => [])) = 0.
Proof.
  apply (ideal_device_passes 32 (-20) 512 8 255).
  - lia.
  - lia.
  - unfold ssize_max. cbn. lia.
Defined.

Lemma cmd_bio_rejects_bad_command_line_witness :
  fst (fst (SimCmd.run 1 [SimCmd.word "bio" 0])) = Some (-1) /\
  fst (fst (SimCmd.run 3 [SimCmd.word "bio" 0; SimCmd.word "dump" 0;
                          SimCmd.word "ram0" 0])) = Some (-1) /\
  fst (fst (SimCmd.run 2 [SimCmd.word "bio" 0; SimCmd.word "frob" 0]))
  = Some (-1).
Proof.
  unfold SimCmd.run. split; [| split].
  - rewrite (proj1 (cmd_bio_rejects_bad_command_line Sim.wbits 32 Sim.ERR_IO
                      Sim.ram unit SimCmd.bdev_of SimCmd.bio_dump_devices
                      SimCmd.bio_open SimCmd.bio_close SimCmd.bio_read
                      SimCmd.bio_write (fun _ => Sim.erase Sim.healthy)
                      (fun _ => Sim.write Sim.healthy) SimCmd.bio_ioctl
                      SimCmd.bio_unregister_device SimCmd.current_time
                      1 (SimCmd.word "bio" 0) [] Sim.fresh));
      [reflexivity | lia].
  - rewrite (proj1 (proj2
               (cmd_bio_rejects_bad_command_line Sim.wbits 32 Sim.ERR_IO
                  Sim.ram unit SimCmd.bdev_of SimCmd.bio_dump_devices
                  SimCmd.bio_open SimCmd.bio_close SimCmd.bio_read
                  SimCmd.bio_write (fun _ => Sim.erase Sim.healthy)
                  (fun _ => Sim.write Sim.healthy) SimCmd.bio_ioctl
                  SimCmd.bio_unregister_device SimCmd.current_time
                  3 (SimCmd.word "bio" 0)
                  [SimCmd.word "dump" 0; SimCmd.word "ram0" 0] Sim.fresh))
               (SimCmd.word "dump" 0) 5);
      [reflexivity | lia | reflexivity | reflexivity | lia].
  - rewrite (proj2 (proj2
               (cmd_bio_rejects_bad_command_line Sim.wbits 32 Sim.ERR_IO
                  Sim.ram unit SimCmd.bdev_of SimCmd.bio_dump_devices
                  SimCmd.bio_open SimCmd.bio_close SimCmd.bio_read
                  SimCmd.bio_write (fun _ => Sim.erase Sim.healthy)
                  (fun _ => Sim.write Sim.healthy) SimCmd.bio_ioctl
                  SimCmd.bio_unregister_device SimCmd.current_time
                  2 (SimCmd.word "bio" 0) [SimCmd.word "frob" 0] Sim.fresh))
               (SimCmd.word "frob" 0));
      [reflexivity | lia | reflexivity | reflexivity].
Defined.


Lemma cmd_bio_test_runs_conformance_test_witness :
  fst (fst (SimCmd.run 3 [SimCmd.word "bio" 0; SimCmd.word "test" 0;
                          SimCmd.word "ram0" 0]))
  = Some (value (Sim.run_test Sim.healthy)).
Proof.
  unfold SimCmd.run.
  rewrite (cmd_bio_test_runs_conformance_test Sim.wbits 32 Sim.ERR_IO
             Sim.ram unit SimCmd.bdev_of SimCmd.bio_dump_devices
             SimCmd.bio_open SimCmd.bio_close SimCmd.bio_read
             SimCmd.bio_write (fun _ => Sim.erase Sim.healthy)
             (fun _ => Sim.write Sim.healthy) SimCmd.bio_ioctl
             SimCmd.bio_unregister_device SimCmd.current_time
             3 _ (SimCmd.word "test" 0) (SimCmd.word "ram0" 0) tt Sim.fresh).
  - reflexivity.
  - reflexivity.
  - reflexivity.
  - reflexivity.
  - lia.
  - reflexivity.
Defined.


Lemma dump_reads_follow_chunks_witness :
  map fst
      (reads_of
         (snd (dump_loop Sim.wbits SimCmd.bio_read (Z.to_nat 16) tt "ram0"
                         0 16 Sim.erased)))
  = chunks 0 16.
Proof.
  apply (dump_reads_follow_chunks Sim.wbits Sim.ram unit SimCmd.bio_read tt
           "ram0" 0 16 Sim.erased).
  - vm_compute. discriminate.
  - replace (reads_of
               (snd (dump_loop Sim.wbits SimCmd.bio_read (Z.to_nat 16) tt
                               "ram0" 0 16 Sim.erased)))
      with [(0, 16, 16)] by (vm_compute; reflexivity).
    constructor; [| constructor].
    split; [cbn; lia | vm_compute; reflexivity].
Defined.

Lemma cmd_bio_dump_status_witness :
  fst (fst (SimCmd.run 5 [SimCmd.word "bio" 0; SimCmd.word "dump" 0;
                          SimCmd.word "ram0" 0; SimCmd.word "0" 0;
                          SimCmd.word "600" 600])) = Some 0.
Proof.
  unfold SimCmd.run.
  apply (cmd_bio_dump_status Sim.wbits 32 Sim.ERR_IO Sim.ram unit
           SimCmd.bdev_of SimCmd.bio_dump_devices SimCmd.bio_open
           SimCmd.bio_close SimCmd.bio_read SimCmd.bio_write
           (fun _ => Sim.erase Sim.healthy)
           (fun _ => Sim.write Sim.healthy) SimCmd.bio_ioctl
           SimCmd.bio_unregister_device SimCmd.current_time
           5 _ (SimCmd.word "dump" 0) (SimCmd.word "ram0" 0)
           (SimCmd.word "0" 0) (SimCmd.word "600" 600) tt Sim.fresh).
  - reflexivity.
  - reflexivity.
  - reflexivity.
  - reflexivity.
  - reflexivity.
  - lia.
  - reflexivity.
  - intros s' off n Hn. unfold SimCmd.bio_read. cbn [fst].
    rewrite length_firstn. lia.
  - vm_compute. discriminate.
Defined.
